(** * Diamonds DevContainer initialisation script: a shallow embedding

    This development embeds [scripts/init-devcontainer.py] and proves the
    properties its specification states about it.

    - Python [str] values are lists of characters.  A character is a Stdlib
      [ascii], read as a code point in the range U+0000..U+00FF; the
      character classes [str.isalnum] and [str.isspace] are the Unicode ones
      restricted to that range.
    - The [.env] mapping (a Python [dict]) is a [gmap] from keys to values.
    - Files hold text; [open(..., 'r')] applies the universal-newline
      translation of Python's text mode, [open(..., 'w')] writes [os.linesep]
      for every newline.
    - [sys.exit] and the mutation of the file system, of [os.environ] and of
      the terminal are threaded through a small state-and-exit monad.  What
      [log] prints is kept as the colour and the kind of the message.
    - [json.loads] is the standard library's parser and is a parameter of
      the development: the theorems hold for every parser.

    Outside the model: failures of the operating system (a file that cannot
    be read, written or decoded, a name or a value that [os.environ]
    refuses) and the keyboard interrupt.  In the model every exception of
    the script is one that the script itself catches. *)

From Stdlib Require Import Ascii String NArith List Lia.
From Equations Require Import Equations.
From stdpp Require Import gmap strings list fin_maps.

Set Default Proof Using "Type".

(** ** Python strings *)

Abbreviation str := (list ascii).

(** A string literal of the source. *)
Definition lit (s : string) : str := list_ascii_of_string s.

(** The text made of the given lines, each ended by a line feed. *)
Definition unlines (lines : list string) : str :=
  flat_map (fun l => lit l ++ ["010"%char]) lines.

(** A literal in which every apostrophe stands for a double quote. *)
Definition json_lit (s : string) : str :=
  map (fun c => if bool_decide (c = "039"%char) then "034"%char else c) (lit s).

Module Str.
Section generic.
Context {A : Type} `{EqDecision A}.
Implicit Types s old new : list A.

(** [s.startswith(old)] *)
Fixpoint startswith (old s : list A) : bool :=
  match old, s with
  | [], _ => true
  | _ :: _, [] => false
  | a :: old', b :: s' => bool_decide (a = b) && startswith old' s'
  end.

(** [s.endswith(old)] *)
Definition endswith (old s : list A) : bool :=
  startswith (reverse old) (reverse s).

(** [s[1:-1]] *)
Definition slice_1_m1 (s : list A) : list A :=
  take (length s - 2) (drop 1 s).

(** [s.partition(old)] without the separator: the text before and the text
    after the leftmost occurrence of [old], or [None] when there is none. *)
Fixpoint partition (old s : list A) : option (list A * list A) :=
  if startswith old s then Some ([], drop (length old) s)
  else match s with
       | [] => None
       | c :: s' =>
           match partition old s' with
           | Some (before, after) => Some (c :: before, after)
           | None => None
           end
       end.

(** [old in s] *)
Definition contains (old s : list A) : bool :=
  match partition old s with Some _ => true | None => false end.

Definition inspect {B} (b : B) : {b' | b = b'} := exist _ b eq_refl.

(** [s.replace('', new)]: [new] goes before every character and at the
    end. *)
Definition intersperse_all (new s : list A) : list A :=
  foldr (fun c acc => new ++ c :: acc) new s.

(** [s.replace(old, new)]: every leftmost non-overlapping occurrence of
    [old], found from left to right, is replaced by [new]. *)
Equations? replace (old new s : list A) : list A by wf (length s) lt :=
  replace nil new s := intersperse_all new s;
  replace (cons o old') new s with inspect (partition (cons o old') s) := {
    | exist _ None _ => s
    | exist _ (Some (before, after)) Hp =>
        before ++ new ++ replace (cons o old') new after
  }.
Proof.
  clear replace.
  revert before Hp. induction s as [|c s IH]; intros before Hp.
  - simpl in Hp. discriminate.
  - simpl in Hp. destruct (bool_decide (o = c) && startswith old' s).
    + inversion Hp; subst. simpl. rewrite length_drop. lia.
    + destruct s as [|c' s'] eqn:Hs.
      * simpl in Hp. discriminate.
      * rewrite <- Hs in *.
        destruct (partition (o :: old') s) as [[b a]|] eqn:Hq; [|discriminate].
        inversion Hp; subst a. specialize (IH _ eq_refl). simpl. lia.
Qed.

(** *** Overlap of a piece of text with a token

    [clash x t] holds when an occurrence of the token [t] can share
    characters with a copy of [x] placed in some surrounding text: [x]
    lies inside [t], [t] lies inside [x], a proper prefix of [x] ends [t],
    or a proper suffix of [x] starts [t]. *)
Definition head_overlaps (x t : list A) : bool :=
  existsb (fun k => endswith (take k x) t) (seq 1 (length x - 1)).

Definition tail_overlaps (x t : list A) : bool :=
  existsb (fun k => startswith (drop k x) t) (seq 1 (length x - 1)).

Definition clash (x t : list A) : bool :=
  contains x t || contains t x || head_overlaps x t || tail_overlaps x t.

(** [t] occurs in [s] as a block of consecutive characters. *)
Definition infix (t s : list A) : Prop := ∃ a b, s = a ++ t ++ b.

(** What [clash] decides. *)
Definition overlaps (x t : list A) : Prop :=
  infix x t ∨ infix t x
  ∨ (∃ p, p ≠ [] ∧ p `prefix_of` x ∧ p `suffix_of` t)
  ∨ (∃ q, q ≠ [] ∧ q `suffix_of` x ∧ q `prefix_of` t).

(** No occurrence of [t] in [x ++ rest] starts within [x]. *)
Definition starts_nowhere_in (t x rest : list A) : Prop :=
  ∀ i, i < length x → ¬ t `prefix_of` drop i (x ++ rest).

End generic.

(** *** Character classes of [str] on U+0000..U+00FF *)

Definition ord (c : ascii) : N := N_of_ascii c.

Definition between (lo hi : N) (c : ascii) : bool :=
  ((lo <=? ord c) && (ord c <=? hi))%N.

(** [c.isspace()]: TAB, LF, VT, FF, CR, FS, GS, RS, US, SPACE, NEL, NBSP. *)
Definition isspace_char (c : ascii) : bool :=
  between 9 13 c || between 28 32 c || between 133 133 c || between 160 160 c.

Definition isdigit_ascii (c : ascii) : bool := between 48 57 c.
Definition isalpha_ascii (c : ascii) : bool := between 65 90 c || between 97 122 c.

(** [c.isalnum()]: the ASCII letters and digits, and in the upper half the
    letters (feminine and masculine ordinal, micro sign, U+00C0..U+00FF
    without the multiplication and division signs) and the numeric characters
    (superscripts one, two, three and the three vulgar fractions). *)
Definition isalnum_char (c : ascii) : bool :=
  isdigit_ascii c || isalpha_ascii c
  || between 170 170 c || between 178 179 c || between 181 181 c
  || between 185 186 c || between 188 190 c
  || between 192 214 c || between 216 246 c || between 248 255 c.

(** [s.isalnum()]: at least one character, and all alphanumeric. *)
Definition isalnum (s : str) : bool :=
  match s with
  | [] => false
  | _ :: _ => forallb isalnum_char s
  end.

Fixpoint lstrip (s : str) : str :=
  match s with
  | [] => []
  | c :: s' => if isspace_char c then lstrip s' else s
  end.

Definition rstrip (s : str) : str := reverse (lstrip (reverse s)).

(** [s.strip()] *)
Definition strip (s : str) : str := rstrip (lstrip s).

End Str.

(** ** Text files *)

Definition LF : ascii := "010"%char.
Definition CR : ascii := "013"%char.
Definition NUMBER_SIGN : str := lit "#".
Definition EQUALS_SIGN : str := lit "=".
Definition DOUBLE_QUOTE : str := ["034"%char].
Definition SINGLE_QUOTE : str := ["039"%char].

(** Reading in text mode with [newline=None]: CR LF and a lone CR both
    arrive as LF. *)
Fixpoint universal_newlines (raw : str) : str :=
  match raw with
  | [] => []
  | c :: rest =>
      if bool_decide (c = CR) then
        LF :: match rest with
              | [] => []
              | c' :: rest' =>
                  if bool_decide (c' = LF) then universal_newlines rest'
                  else universal_newlines rest
              end
      else c :: universal_newlines rest
  end.

Inductive platform := Posix | Windows.

Definition linesep (host : platform) : str :=
  match host with
  | Posix => [LF]
  | Windows => [CR; LF]
  end.

(** Writing in text mode with [newline=None]: every LF leaves as
    [os.linesep]. *)
Definition encode_newlines (host : platform) (text : str) : str :=
  flat_map (fun c => if bool_decide (c = LF) then linesep host else [c]) text.

(** Iterating over a text file: the lines, each with its terminating LF;
    the last one has none when the text does not end in LF. *)
Fixpoint readlines (text : str) : list str :=
  match text with
  | [] => []
  | c :: rest =>
      if bool_decide (c = LF) then [c] :: readlines rest
      else match readlines rest with
           | [] => [[c]]
           | line :: lines => (c :: line) :: lines
           end
  end.

(** ** The [.env] mapping *)

Abbreviation env := (gmap str str).

(** Lines 60-64: one layer of double quotes, else one layer of single
    quotes, when the value both starts and ends with that quote. *)
Definition unquote (value : str) : str :=
  if Str.startswith DOUBLE_QUOTE value && Str.endswith DOUBLE_QUOTE value
  then Str.slice_1_m1 value
  else if Str.startswith SINGLE_QUOTE value && Str.endswith SINGLE_QUOTE value
  then Str.slice_1_m1 value
  else value.

(** What the body of the loop of [load_env_file] does with one line. *)
Inductive line_action :=
  | Skip
  | Bind (key value : str)
  | Invalid (line : str).

Definition parse_line (line : str) : line_action :=
  let line := Str.strip line in
  if bool_decide (line = []) || Str.startswith NUMBER_SIGN line then Skip
  else if Str.contains EQUALS_SIGN line then
    match Str.partition EQUALS_SIGN line with
    | Some (key, value) =>
        let key := Str.strip key in
        let value := Str.strip value in
        Bind key (unquote value)
    | None => Invalid line
    end
  else Invalid line.

(** ** JSON documents, as [json.loads] returns them *)

#[local] Unset Elimination Schemes.
Inductive json :=
  | JNull
  | JBool (b : bool)
  | JNumber (literal : str)
  | JString (s : str)
  | JList (elements : list json)
  | JDict (items : list (str * json)).
#[local] Set Elimination Schemes.

(** [field in config].  A [dict] is searched for the key, a [list] for an
    equal element, a [str] for the substring; the other values are not
    containers and the test raises [TypeError] ([None] here). *)
Definition py_in (field : str) (config : json) : option bool :=
  match config with
  | JDict items => Some (bool_decide (field ∈ items.*1))
  | JList elements =>
      Some (existsb (fun j => match j with
                              | JString s => bool_decide (field = s)
                              | _ => false
                              end) elements)
  | JString s => Some (Str.contains field s)
  | JNull | JBool _ | JNumber _ => None
  end.

(** ** The process: files, environment, terminal, exit *)

Abbreviation path := (list str).

(** [dir / name] *)
Definition joinpath (dir : path) (name : string) : path := dir ++ [lit name].

Inductive color := GREEN | YELLOW | BLUE | RED | NC.

(** The calls of [log], one constructor per message of the source. *)
Inductive message :=
  | MsgEnvNotFound (env_path : path)
  | MsgCreatingDefaultEnv
  | MsgCreatedDefaultEnv (env_path : path)
  | MsgCreateDefaultEnvError
  | MsgInvalidLine (line_num : nat) (line : str)
  | MsgEnvReadError
  | MsgInvalidWorkspaceName (workspace_name : str)
  | MsgWorkspaceNameRule
  | MsgTemplateNotFound (template_path : path)
  | MsgEnsureTemplate
  | MsgInvalidJson
  | MsgGenerated
  | MsgWorkspaceNameIs (workspace_name : str)
  | MsgDiamondNameIs (diamond_name : str)
  | MsgGenerateError
  | MsgMissingField (field : str)
  | MsgVerifyError
  | MsgRule
  | MsgTitle
  | MsgBlank
  | MsgLoadingEnv
  | MsgLoaded (count : nat)
  | MsgGenerating
  | MsgVerifying
  | MsgConfigValid
  | MsgConfigIssues
  | MsgComplete
  | MsgWillStart.

Global Instance color_eq_dec : EqDecision color.
Proof. solve_decision. Defined.

Global Instance message_eq_dec : EqDecision message.
Proof. solve_decision. Defined.

Record world := World {
  fs : gmap path str;          (* the text of every existing file *)
  environ : gmap str str;      (* os.environ *)
  terminal : list (color * message)  (* what log printed, oldest first *)
}.

Inductive outcome (A : Type) :=
  | Return (a : A) (w : world)
  | Exit (code : Z) (w : world).
Arguments Return {A} a w.
Arguments Exit {A} code w.

Definition M (A : Type) : Type := world -> outcome A.

Definition ret {A} (a : A) : M A := fun w => Return a w.

Definition bind {A B} (m : M A) (k : A -> M B) : M B :=
  fun w => match m w with
           | Return a w' => k a w'
           | Exit code w' => Exit code w'
           end.

Notation "x <- m ;; k" := (bind m (fun x => k))
  (at level 100, m at next level, right associativity).
Notation "m ;; k" := (bind m (fun _ => k))
  (at level 100, right associativity).

Definition sys_exit {A} (code : Z) : M A := fun w => Exit code w.

Definition log (msg : message) (c : color) : M unit :=
  fun w => Return tt (World (fs w) (environ w) (terminal w ++ [(c, msg)])).

Definition path_exists (p : path) : M bool :=
  fun w => Return (bool_decide (is_Some (fs w !! p))) w.

(** [open(p, 'r').read()]; [None] stands for the exception raised when the
    file is missing. *)
Definition read_text (p : path) : M (option str) :=
  fun w => Return (universal_newlines <$> fs w !! p) w.

Definition setenv (key value : str) : M unit :=
  fun w => Return tt (World (fs w) (<[key := value]> (environ w)) (terminal w)).

(** The process exit status: 0 when [main] returns. *)
Definition exit_status {A} (o : outcome A) : Z :=
  match o with
  | Return _ _ => 0
  | Exit code _ => code
  end.

Definition final_world {A} (o : outcome A) : world :=
  match o with
  | Return _ w => w
  | Exit _ w => w
  end.

(** ** The script *)

(** [env_vars.get(key, fallback)] *)
Definition dict_get (env_vars : env) (key fallback : string) : str :=
  default (lit fallback) (env_vars !! lit key).

Definition WORKSPACE_TOKEN : str := lit "__WORKSPACE_NAME__".
Definition DIAMOND_TOKEN : str := lit "__DIAMOND_NAME__".

(** Lines 120-121. *)
Definition workspace_name_of (env_vars : env) : str :=
  dict_get env_vars "WORKSPACE_NAME" "diamonds_project".
Definition diamond_name_of (env_vars : env) : str :=
  dict_get env_vars "DIAMOND_NAME" "ExampleDiamond".

(** Line 124: [workspace_name.replace('_', '').replace('-', '').isalnum()] *)
Definition valid_workspace_name (workspace_name : str) : bool :=
  Str.isalnum (Str.replace (lit "-") [] (Str.replace (lit "_") [] workspace_name)).

(** Lines 140-142. *)
Definition render (template workspace_name diamond_name : str) : str :=
  let output := template in
  let output := Str.replace WORKSPACE_TOKEN workspace_name output in
  let output := Str.replace DIAMOND_TOKEN diamond_name output in
  output.

Definition required_fields : list str :=
  [lit "name"; lit "dockerComposeFile"; lit "service"; lit "workspaceFolder"].

(** The text of [default_content], line by line. *)
Definition default_lines : list string :=
  [ "# Diamonds DevContainer Configuration";
    "# Generated automatically - customize as needed";
    "";
    "# Project Identity";
    "WORKSPACE_NAME=diamonds_project";
    "DIAMOND_NAME=ExampleDiamond";
    "";
    "# Vault Configuration";
    "VAULT_COMMAND=server -dev -dev-root-token-id=root -dev-listen-address=0.0.0.0:8200";
    "VAULT_PORT=8200";
    "";
    "# Port Mappings";
    "HARDHAT_PORT=8545";
    "ADDITIONAL_BLOCKCHAIN_PORT=8556";
    "FRONTEND_PORT=3001";
    "API_PORT=5001";
    "DOC_PORT=8081" ].

Definition default_content : str := unlines default_lines.

Section Script.
(** [json.loads] *)
Variable json_loads : str -> option json.
(** The machine the script runs on. *)
Variable host : platform.

(** [open(p, 'w').write(text)] *)
Definition write_text (p : path) (text : str) : M unit :=
  fun w => Return tt
    (World (<[p := encode_newlines host text]> (fs w)) (environ w) (terminal w)).

Definition create_default_env (env_path : path) : M unit :=
  write_text env_path default_content ;;
  log (MsgCreatedDefaultEnv env_path) GREEN.

(** The loop of lines 47-68 over the remaining lines. *)
Fixpoint load_lines (line_num : nat) (lines : list str) (env_vars : env) : M env :=
  match lines with
  | [] => ret env_vars
  | line :: rest =>
      match parse_line line with
      | Skip => load_lines (S line_num) rest env_vars
      | Bind key value => load_lines (S line_num) rest (<[key := value]> env_vars)
      | Invalid line' =>
          log (MsgInvalidLine line_num line') YELLOW ;;
          load_lines (S line_num) rest env_vars
      end
  end.

Definition load_env_file (env_path : path) : M env :=
  present <- path_exists env_path ;;
  (if present : bool then ret tt
   else (log (MsgEnvNotFound env_path) YELLOW ;;
         log MsgCreatingDefaultEnv BLUE ;;
         create_default_env env_path)) ;;
  content <- read_text env_path ;;
  match content with
  | Some text => load_lines 1 (readlines text) ∅
  | None => (log MsgEnvReadError RED ;; sys_exit 1)
  end.

Definition generate_devcontainer
    (template_path output_path : path) (env_vars : env) : M unit :=
  let workspace_name := workspace_name_of env_vars in
  let diamond_name := diamond_name_of env_vars in
  if negb (valid_workspace_name workspace_name) then
    (log (MsgInvalidWorkspaceName workspace_name) RED ;;
     log MsgWorkspaceNameRule YELLOW ;;
     sys_exit 1)
  else
    present <- path_exists template_path ;;
    if negb present then
      (log (MsgTemplateNotFound template_path) RED ;;
       log MsgEnsureTemplate YELLOW ;;
       sys_exit 1)
    else
      content <- read_text template_path ;;
      match content with
      | None => (log MsgGenerateError RED ;; sys_exit 1)
      | Some template =>
          let output := render template workspace_name diamond_name in
          match json_loads output with
          | None => (log MsgInvalidJson RED ;; sys_exit 1)
          | Some _ =>
              write_text output_path output ;;
              log MsgGenerated GREEN ;;
              log (MsgWorkspaceNameIs workspace_name) NC ;;
              log (MsgDiamondNameIs diamond_name) NC ;;
              setenv (lit "WORKSPACE_NAME") workspace_name ;;
              setenv (lit "DIAMOND_NAME") diamond_name ;;
              (* for key, value in env_vars.items(): os.environ[key] = value *)
              (fun w => Return tt
                 (World (fs w) (env_vars ∪ environ w) (terminal w)))
          end
      end.

(** The loop of lines 188-191 over the remaining fields. *)
Fixpoint check_fields (config : json) (fields : list str) : M bool :=
  match fields with
  | [] => ret true
  | field :: rest =>
      match py_in field config with
      | Some true => check_fields config rest
      | Some false => (log (MsgMissingField field) YELLOW ;; ret false)
      | None => (log MsgVerifyError RED ;; ret false)
      end
  end.

Definition verify_generated_config (output_path : path) : M bool :=
  content <- read_text output_path ;;
  match content ≫= json_loads with
  | Some config => check_fields config required_fields
  | None => (log MsgVerifyError RED ;; ret false)
  end.

Definition env_path (devcontainer_dir : path) : path :=
  joinpath devcontainer_dir ".env".
Definition template_path (devcontainer_dir : path) : path :=
  joinpath devcontainer_dir "devcontainer.template.json".
Definition output_path (devcontainer_dir : path) : path :=
  joinpath devcontainer_dir "devcontainer.json".

(** [main], in the three commented blocks of the source. *)

(** Lines 209-218: the banner, then "Load environment variables". *)
Definition main_load (devcontainer_dir : path) : M env :=
  log MsgRule BLUE ;;
  log MsgTitle BLUE ;;
  log MsgRule BLUE ;;
  log MsgBlank NC ;;
  log MsgLoadingEnv BLUE ;;
  env_vars <- load_env_file (env_path devcontainer_dir) ;;
  log (MsgLoaded (size env_vars)) GREEN ;;
  log MsgBlank NC ;;
  ret env_vars.

(** Lines 220-223: "Generate devcontainer.json". *)
Definition main_generate (devcontainer_dir : path) (env_vars : env) : M unit :=
  log MsgGenerating BLUE ;;
  generate_devcontainer
    (template_path devcontainer_dir) (output_path devcontainer_dir) env_vars ;;
  log MsgBlank NC.

(** Lines 225-238: "Verify generated config", then the closing banner. *)
Definition main_verify (devcontainer_dir : path) : M unit :=
  log MsgVerifying BLUE ;;
  ok <- verify_generated_config (output_path devcontainer_dir) ;;
  (if ok : bool then log MsgConfigValid GREEN
   else log MsgConfigIssues YELLOW) ;;
  log MsgBlank NC ;;
  log MsgRule GREEN ;;
  log MsgComplete GREEN ;;
  log MsgRule GREEN ;;
  log MsgBlank NC ;;
  log MsgWillStart BLUE ;;
  log MsgBlank NC.

Definition main (devcontainer_dir : path) : M unit :=
  env_vars <- main_load devcontainer_dir ;;
  main_generate devcontainer_dir env_vars ;;
  main_verify devcontainer_dir.

End Script.

(** ** Notions the properties are stated with *)

(** A template seen as literal text interrupted by placeholders. *)
Inductive placeholder := WorkspaceName | DiamondName.

Definition token (p : placeholder) : str :=
  match p with
  | WorkspaceName => WORKSPACE_TOKEN
  | DiamondName => DIAMOND_TOKEN
  end.

(** The text made of the segments, each placeholder written as [shown]. *)
Fixpoint assemble (shown : placeholder -> str)
    (segments : list (str * placeholder)) (ending : str) : str :=
  match segments with
  | [] => ending
  | (text, p) :: rest => text ++ shown p ++ assemble shown rest ending
  end.

Definition substituted (workspace_name diamond_name : str) (p : placeholder) : str :=
  match p with
  | WorkspaceName => workspace_name
  | DiamondName => diamond_name
  end.

(** A piece of text that shares no character position with any occurrence
    of a placeholder token, wherever it is put. *)
Definition inert (x : str) : bool :=
  negb (Str.clash x WORKSPACE_TOKEN) && negb (Str.clash x DIAMOND_TOKEN).

(** The characters [A-Za-z0-9_-]. *)
Definition identifier_char (c : ascii) : bool :=
  Str.isalpha_ascii c || Str.isdigit_ascii c
  || bool_decide (c = "_"%char) || bool_decide (c = "-"%char).


Definition is_quote (c : ascii) : bool :=
  bool_decide (c = "034"%char) || bool_decide (c = "039"%char).

(** A world with more lines on the terminal. *)
Definition logged (w : world) (entries : list (color * message)) : world :=
  World (fs w) (environ w) (terminal w ++ entries).

(** The world [generate_devcontainer] leaves when it returns, having written
    [output]. *)
Definition generated (host : platform) (op : path) (env_vars : env)
    (output : str) (w : world) : world :=
  World (<[op := encode_newlines host output]> (fs w))
    (env_vars ∪ <[lit "DIAMOND_NAME" := diamond_name_of env_vars]>
                  (<[lit "WORKSPACE_NAME" := workspace_name_of env_vars]> (environ w)))
    (terminal w ++ [(GREEN, MsgGenerated);
                    (NC, MsgWorkspaceNameIs (workspace_name_of env_vars));
                    (NC, MsgDiamondNameIs (diamond_name_of env_vars))]).

(** *** The [.env] format in the words of the specification

    The two definitions below restate, from the words of the specification,
    what a line of the [.env] file binds; they are compared with
    [parse_line] and [unquote], which follow the source. *)

(** One layer of surrounding matching single or double quotes, stripped. *)
Definition spec_unquote (value : str) : str :=
  match value with
  | [] => []
  | q :: rest =>
      if is_quote q && bool_decide (last value = Some q)
      then take (length rest - 1) rest
      else value
  end.

(** A line of the form [KEY=VALUE], split on its first ['='], binds the
    trimmed key to the trimmed value without its quotes; an empty line and a
    line that starts with ['#'] bind nothing. *)
Definition spec_binding (line : str) : option (str * str) :=
  let line := Str.strip line in
  match line with
  | [] => None
  | c :: _ =>
      if bool_decide (c = "#"%char) then None
      else match list_find (λ c, c = "="%char) line with
           | Some (i, _) =>
               Some (Str.strip (take i line),
                     spec_unquote (Str.strip (drop (S i) line)))
           | None => None
           end
  end.

(** What one turn of the loop of [load_env_file] does to the mapping. *)
Definition apply_line (env_vars : env) (line : str) : env :=
  match parse_line line with
  | Bind key value => <[key := value]> env_vars
  | Skip | Invalid _ => env_vars
  end.

(** ** A reference JSON reader

    [json.loads] is a parameter of the script above.  The examples need one
    concrete reader: this one follows the grammar of RFC 8259, without the
    [\u] escapes, and keeps a number as its literal. *)

Module RefJson.

Definition is_ws (c : ascii) : bool :=
  bool_decide (c = " "%char) || bool_decide (c = "009"%char)
  || bool_decide (c = LF) || bool_decide (c = CR).

Fixpoint skip_ws (s : str) : str :=
  match s with
  | [] => []
  | c :: rest => if is_ws c then skip_ws rest else s
  end.

Fixpoint span (f : ascii -> bool) (s : str) : str * str :=
  match s with
  | [] => ([], [])
  | c :: rest =>
      if f c then let '(a, b) := span f rest in (c :: a, b) else ([], s)
  end.

Definition unescape (c : ascii) : option ascii :=
  if bool_decide (c = "034"%char) then Some "034"%char
  else if bool_decide (c = "\"%char) then Some "\"%char
  else if bool_decide (c = "/"%char) then Some "/"%char
  else if bool_decide (c = "b"%char) then Some "008"%char
  else if bool_decide (c = "f"%char) then Some "012"%char
  else if bool_decide (c = "n"%char) then Some "010"%char
  else if bool_decide (c = "r"%char) then Some "013"%char
  else if bool_decide (c = "t"%char) then Some "009"%char
  else None.

(** The characters of a string up to its closing quote, and what follows. *)
Fixpoint string_body (s : str) : option (str * str) :=
  match s with
  | [] => None
  | c :: rest =>
      if bool_decide (c = "034"%char) then Some ([], rest)
      else if bool_decide (c = "\"%char) then
        match rest with
        | [] => None
        | e :: rest' =>
            match unescape e, string_body rest' with
            | Some x, Some (body, after) => Some (x :: body, after)
            | _, _ => None
            end
        end
      else if (Str.ord c <? 32)%N then None
      else match string_body rest with
           | Some (body, after) => Some (c :: body, after)
           | None => None
           end
  end.

Definition digits (s : str) : option (str * str) :=
  match span Str.isdigit_ascii s with
  | ([], _) => None
  | (ds, rest) => Some (ds, rest)
  end.

(** An optional minus sign, an integer part without a superfluous
    leading zero, an optional fraction, an optional exponent. *)
Definition number (s : str) : option (str * str) :=
  let '(sign, s1) :=
    match s with
    | c :: r => if bool_decide (c = "-"%char) then ([c], r) else ([], s)
    | [] => ([], s)
    end in
  '(int, s2) ← digits s1;
  if bool_decide (1 < length int) && Str.startswith (lit "0") int then None
  else
    '(frac, s3) ←
      match s2 with
      | c :: r =>
          if bool_decide (c = "."%char)
          then '(ds, r') ← digits r; Some (c :: ds, r')
          else Some ([], s2)
      | [] => Some ([], s2)
      end;
    '(exp, s4) ←
      match s3 with
      | c :: r =>
          if bool_decide (c = "e"%char) || bool_decide (c = "E"%char) then
            let '(sg, r1) :=
              match r with
              | c' :: r' =>
                  if bool_decide (c' = "+"%char) || bool_decide (c' = "-"%char)
                  then ([c'], r') else ([], r)
              | [] => ([], r)
              end in
            '(ds, r2) ← digits r1; Some (c :: sg ++ ds, r2)
          else Some ([], s3)
      | [] => Some ([], s3)
      end;
    Some (sign ++ int ++ frac ++ exp, s4).

Fixpoint value (fuel : nat) (s : str) {struct fuel} : option (json * str) :=
  match fuel with
  | 0 => None
  | S fuel =>
      let s := skip_ws s in
      if Str.startswith (lit "{") s then
        let r := skip_ws (drop 1 s) in
        if Str.startswith (lit "}") r then Some (JDict [], drop 1 r)
        else '(items, r') ← members fuel r; Some (JDict items, r')
      else if Str.startswith (lit "[") s then
        let r := skip_ws (drop 1 s) in
        if Str.startswith (lit "]") r then Some (JList [], drop 1 r)
        else '(vs, r') ← elements fuel r; Some (JList vs, r')
      else if Str.startswith DOUBLE_QUOTE s then
        '(body, r) ← string_body (drop 1 s); Some (JString body, r)
      else if Str.startswith (lit "true") s then Some (JBool true, drop 4 s)
      else if Str.startswith (lit "false") s then Some (JBool false, drop 5 s)
      else if Str.startswith (lit "null") s then Some (JNull, drop 4 s)
      else '(literal, r) ← number s; Some (JNumber literal, r)
  end
with members (fuel : nat) (s : str) {struct fuel} : option (list (str * json) * str) :=
  match fuel with
  | 0 => None
  | S fuel =>
      if Str.startswith DOUBLE_QUOTE s then
        '(key, r1) ← string_body (drop 1 s);
        let r1 := skip_ws r1 in
        if Str.startswith (lit ":") r1 then
          '(v, r2) ← value fuel (drop 1 r1);
          let r2 := skip_ws r2 in
          if Str.startswith (lit ",") r2 then
            '(items, r3) ← members fuel (skip_ws (drop 1 r2));
            Some ((key, v) :: items, r3)
          else if Str.startswith (lit "}") r2 then Some ([(key, v)], drop 1 r2)
          else None
        else None
      else None
  end
with elements (fuel : nat) (s : str) {struct fuel} : option (list json * str) :=
  match fuel with
  | 0 => None
  | S fuel =>
      '(v, r1) ← value fuel s;
      let r1 := skip_ws r1 in
      if Str.startswith (lit ",") r1 then
        '(vs, r2) ← elements fuel (drop 1 r1); Some (v :: vs, r2)
      else if Str.startswith (lit "]") r1 then Some ([v], drop 1 r1)
      else None
  end.

Definition json_loads (text : str) : option json :=
  match value (2 * length text + 2) text with
  | Some (config, rest) =>
      match skip_ws rest with
      | [] => Some config
      | _ :: _ => None
      end
  | None => None
  end.

End RefJson.

(** ** Worlds for the examples *)

Module Example.

Definition dir : path := [lit "repo"; lit ".devcontainer"].

Definition template : str :=
  json_lit "{'name': '__WORKSPACE_NAME__', 'dockerComposeFile': 'docker-compose.yml', 'service': '__DIAMOND_NAME__', 'workspaceFolder': '/workspaces/__WORKSPACE_NAME__'}".

(** A template whose diamond value lands outside a JSON string. *)
Definition unquoted_template : str := json_lit "{'name': __DIAMOND_NAME__}".

(** A template without two of the required fields. *)
Definition short_template : str :=
  json_lit "{'name': '__WORKSPACE_NAME__', 'service': '__DIAMOND_NAME__'}".

(** A template that is an array of the four field names. *)
Definition array_template : str :=
  json_lit "['name', 'dockerComposeFile', 'service', 'workspaceFolder']".

(** A checkout with a template and no [.env] file. *)
Definition checkout (template : str) : world :=
  World {[ template_path dir := template ]} ∅ [].

(** The mapping loaded from the default [.env] file. *)
Definition default_env : env := foldl apply_line ∅ (readlines default_content).

End Example.

(** * Properties *)

Import Str.

(** ** The functions on small inputs *)

Example replace_is_leftmost_first :
  replace (lit "aa") (lit "b") (lit "aaa") = lit "ba".
Proof. reflexivity. Qed.

Example replace_does_not_rescan :
  replace (lit "ab") (lit "a") (lit "aabb") = lit "aab".
Proof. reflexivity. Qed.

Example strip_both_ends : strip (lit "  a b 	") = lit "a b".
Proof. reflexivity. Qed.

Example readlines_keeps_line_feeds :
  readlines (unlines ["A=1"; ""] ++ lit "B=2")
  = [lit "A=1" ++ [LF]; [LF]; lit "B=2"].
Proof. reflexivity. Qed.

Example universal_newlines_crlf :
  universal_newlines (lit "a" ++ [CR; LF] ++ lit "b" ++ [CR] ++ lit "c")
  = lit "a" ++ [LF] ++ lit "b" ++ [LF] ++ lit "c".
Proof. reflexivity. Qed.

Example parse_line_quoted :
  parse_line (lit "  NAME = 'x y'  " ++ [LF]) = Bind (lit "NAME") (lit "x y").
Proof. reflexivity. Qed.

Example parse_line_first_equals :
  parse_line (lit "CMD=server -id=root") = Bind (lit "CMD") (lit "server -id=root").
Proof. reflexivity. Qed.

Example parse_line_comment : parse_line (lit "  # A=1") = Skip.
Proof. reflexivity. Qed.

Example parse_line_no_equals :
  parse_line (lit "export") = Invalid (lit "export").
Proof. reflexivity. Qed.

Example my_project_is_rejected : valid_workspace_name (lit "My Project!") = false.
Proof. reflexivity. Qed.

Example my_project_1_is_accepted : valid_workspace_name (lit "my-project_1") = true.
Proof. reflexivity. Qed.

(** ** Searching and replacing in lists of characters *)

Section str_facts.
Context {A : Type} `{EqDecision A}.
Implicit Types s t x old new : list A.

Lemma startswith_prefix old s :
  startswith old s = true ↔ old `prefix_of` s.
Proof.
  revert s. induction old as [|a old IH]; intros [|b s]; simpl.
  - split; [intros _; apply prefix_nil | done].
  - split; [intros _; apply prefix_nil | done].
  - split; [done | intros Hp; by apply prefix_nil_not in Hp].
  - rewrite andb_true_iff, bool_decide_eq_true, IH. split.
    + intros [-> Hp]. by apply prefix_cons.
    + intros Hp. split; [by eapply prefix_cons_inv_1 | by eapply prefix_cons_inv_2].
Qed.

Lemma endswith_suffix old s :
  endswith old s = true ↔ old `suffix_of` s.
Proof. unfold endswith. by rewrite startswith_prefix, suffix_prefix_reverse. Qed.

Lemma partition_unfold old s :
  partition old s =
  if startswith old s then Some ([], drop (length old) s)
  else match s with
       | [] => None
       | c :: s' =>
           match partition old s' with
           | Some (before, after) => Some (c :: before, after)
           | None => None
           end
       end.
Proof. by destruct s. Qed.

Lemma startswith_drop old s :
  startswith old s = true → s = old ++ drop (length old) s.
Proof. intros [k ->]%startswith_prefix. by rewrite drop_app_length. Qed.

Lemma startswith_app old s : startswith old (old ++ s) = true.
Proof. apply startswith_prefix. by exists s. Qed.

Lemma partition_Some old s b a :
  partition old s = Some (b, a) → s = b ++ old ++ a.
Proof.
  revert b. induction s as [|c s IH]; intros b; rewrite partition_unfold;
    destruct (startswith old _) eqn:Hsw.
  - intros [= <- <-]. by apply startswith_drop.
  - done.
  - intros [= <- <-]. by apply startswith_drop.
  - destruct (partition old s) as [[b' a']|]; [|done].
    intros [= <- <-]. simpl. f_equal. by apply IH.
Qed.

Lemma partition_leftmost old s b a x y :
  partition old s = Some (b, a) → s = x ++ old ++ y → length b ≤ length x.
Proof.
  revert b x. induction s as [|c s IH]; intros b x; rewrite partition_unfold;
    destruct (startswith old _) eqn:Hsw.
  - intros [= <- <-]. simpl. lia.
  - done.
  - intros [= <- <-]. simpl. lia.
  - destruct (partition old s) as [[b' a']|] eqn:Hp; [|done].
    intros [= <- <-] Hs. destruct x as [|c' x].
    + exfalso. simpl in Hs. rewrite Hs in Hsw.
      assert (startswith old (old ++ y) = true) as Ht
        by (apply startswith_prefix; by eexists).
      congruence.
    + simpl in Hs. injection Hs as -> Hs. simpl.
      specialize (IH _ _ eq_refl Hs). lia.
Qed.

Lemma partition_None old s : partition old s = None → ¬ infix old s.
Proof.
  induction s as [|c s IH]; rewrite partition_unfold;
    destruct (startswith old _) eqn:Hsw; try done.
  - intros _ (x & y & Hs). destruct x; [|done]. simpl in Hs.
    rewrite Hs in Hsw.
    assert (startswith old (old ++ y) = true) as Ht
        by (apply startswith_prefix; by eexists).
    congruence.
  - destruct (partition old s) as [[b' a']|] eqn:Hp; [done|].
    intros _ (x & y & Hs). destruct x as [|c' x].
    + simpl in Hs. rewrite Hs in Hsw.
      assert (startswith old (old ++ y) = true) as Ht
        by (apply startswith_prefix; by eexists).
      congruence.
    + simpl in Hs. injection Hs as -> Hs. apply IH; [done|]. by exists x, y.
Qed.

Lemma contains_infix old s : contains old s = true ↔ infix old s.
Proof.
  unfold contains. destruct (partition old s) as [[b a]|] eqn:Hp.
  - split; [|done]. intros _. exists b, a. by apply partition_Some.
  - split; [done|]. intros Hi. by apply partition_None in Hp.
Qed.

Lemma contains_false old s : contains old s = false ↔ ¬ infix old s.
Proof. rewrite <- contains_infix. by destruct (contains old s). Qed.

Lemma replace_unfold o old' new s :
  replace (o :: old') new s =
  match partition (o :: old') s with
  | None => s
  | Some (b, a) => b ++ new ++ replace (o :: old') new a
  end.
Proof.
  simp replace.
  by destruct (inspect (partition (o :: old') s)) as [[[b a]|] Hp];
    simpl; rewrite Hp.
Qed.

Lemma infix_app_l t a b : infix t a → infix t (a ++ b).
Proof. intros (x & y & ->). exists x, (y ++ b). by rewrite <- !(assoc_L (++)). Qed.

Lemma infix_app_r t a b : infix t b → infix t (a ++ b).
Proof. intros (x & y & ->). exists (a ++ x), y. by rewrite <- !(assoc_L (++)). Qed.

Lemma infix_nil t : infix [] t.
Proof. by exists [], t. Qed.

(** An occurrence of [t] in [a ++ x ++ b] lies in [a], lies in [b], or
    shares characters with [x]. *)
Lemma infix_app3 t a x b :
  infix t (a ++ x ++ b) → infix t a ∨ infix t b ∨ overlaps x t.
Proof.
  intros (u & v & Hs). unfold overlaps.
  apply app_eq_inv in Hs as [(k & Ha & Hk)|(k & Hu & Hk)].
  - apply app_eq_inv in Hk as [(k' & Ht & Hxb)|(k' & Hk' & Hv)].
    + apply app_eq_inv in Hxb as [(m & Hx & Hv)|(m & Hk' & Hb)].
      * destruct k' as [|c k'].
        -- left. exists u, []. rewrite Ha, Ht. by rewrite !app_nil_r.
        -- do 4 right; left. exists (c :: k').
           split; [done|]. split; [by exists m | by exists k].
      * do 2 right; left. exists k, m. by rewrite Ht, Hk'.
    + left. exists u, k'. by rewrite Ha, Hk'.
  - apply app_eq_inv in Hk as [(m & Hx & Hm)|(m & Hk1 & Hb)].
    + apply app_eq_inv in Hm as [(n & Ht & Hb)|(n & Hm & Hv)].
      * destruct m as [|c m].
        -- right; left. exists [], v. by rewrite Hb, Ht.
        -- do 5 right. exists (c :: m).
           split; [done|]. split; [by exists k | by exists n].
      * do 3 right; left. exists k, n. by rewrite Hx, Hm.
    + right; left. exists m, v. done.
Qed.

(** The Boolean test detects every overlap. *)
Lemma clash_false x t : clash x t = false → ¬ overlaps x t.
Proof.
  unfold clash. rewrite !orb_false_iff.
  intros [[[Hxt Htx] Hh] Ht] [Hi|[Hi|[(p & Hp & Hpx & Hpt)|(q & Hq & Hqx & Hqt)]]].
  - apply contains_infix in Hi. congruence.
  - apply contains_infix in Hi. congruence.
  - destruct (decide (length p = length x)) as [Hlen|Hlen].
    + apply prefix_length_eq in Hpx; [|lia]. subst p.
      destruct Hpt as [k ->].
      assert (contains x (k ++ x) = true) as Hc
        by (apply contains_infix; exists k, []; by rewrite app_nil_r).
      congruence.
    + assert (existsb (fun k => endswith (take k x) t)
                (seq 1 (length x - 1)) = true) as He; [|unfold head_overlaps in Hh; congruence].
      apply existsb_exists. exists (length p). split.
      * apply in_seq. apply prefix_length in Hpx as Hle.
        destruct p; [done|]. simpl in *. lia.
      * apply endswith_suffix. destruct Hpx as [k ->].
        by rewrite take_app_length.
  - destruct (decide (length q = length x)) as [Hlen|Hlen].
    + apply suffix_length_eq in Hqx; [|lia]. subst q.
      destruct Hqt as [k ->].
      assert (contains x (x ++ k) = true) as Hc
        by (apply contains_infix; by exists [], k).
      congruence.
    + assert (existsb (fun k => startswith (drop k x) t)
                (seq 1 (length x - 1)) = true) as He; [|unfold tail_overlaps in Ht; congruence].
      apply existsb_exists. exists (length x - length q). split.
      * apply in_seq. apply suffix_length in Hqx as Hle.
        destruct q; [done|]. simpl in *. lia.
      * apply startswith_prefix. destruct Hqx as [k ->].
        rewrite length_app.
        replace (length k + length q - length q) with (length k) by lia.
        by rewrite drop_app_length.
Qed.

Lemma lt_wf_length_ind (P : list A → Prop) :
  (∀ s, (∀ s', length s' < length s → P s') → P s) → ∀ s, P s.
Proof.
  intros IH s. remember (length s) as n eqn:Hn. revert s Hn.
  induction n as [n IHn] using lt_wf_ind. intros s ->.
  apply IH. intros s' Hlt. by eapply IHn.
Qed.

Lemma partition_shorter o old' s b a :
  partition (o :: old') s = Some (b, a) → length a < length s.
Proof. intros ->%partition_Some. rewrite !length_app. simpl. lia. Qed.

Lemma partition_before_clean o old' s b a :
  partition (o :: old') s = Some (b, a) → ¬ infix (o :: old') b.
Proof.
  intros Hp (x & y & Hb).
  pose proof (partition_Some _ _ _ _ Hp) as Hs.
  assert (s = x ++ (o :: old') ++ (y ++ (o :: old') ++ a)) as Hs'.
  { rewrite Hs, Hb. by rewrite <- !(assoc_L (++)). }
  pose proof (partition_leftmost _ _ _ _ _ _ Hp Hs') as Hle.
  rewrite Hb, !length_app in Hle. simpl in Hle. lia.
Qed.

(** After replacing [t] by a text that does not overlap [t], no occurrence
    of [t] is left. *)
Lemma replace_clean t new s :
  t ≠ [] → ¬ overlaps new t → ¬ infix t (replace t new s).
Proof.
  destruct t as [|o old']; [done|]. intros _ Hno. induction s as [s IH] using lt_wf_length_ind.
  rewrite replace_unfold.
  destruct (partition (o :: old') s) as [[b a]|] eqn:Hp.
  - intros [Hi|[Hi|Hi]]%infix_app3; [|by eapply IH; [eapply partition_shorter|]|done].
    by eapply partition_before_clean.
  - by apply partition_None.
Qed.

(** Replacing [t] by a text that does not overlap [t'] creates no
    occurrence of [t']. *)
Lemma replace_absent t' t new s :
  t ≠ [] → ¬ overlaps new t' → ¬ infix t' s → ¬ infix t' (replace t new s).
Proof.
  destruct t as [|o old']; [done|]. intros _ Hno. induction s as [s IH] using lt_wf_length_ind. intros Hs.
  rewrite replace_unfold.
  destruct (partition (o :: old') s) as [[b a]|] eqn:Hp; [|done].
  pose proof (partition_Some _ _ _ _ Hp) as Hsplit.
  intros [Hi|[Hi|Hi]]%infix_app3; [| |done].
  - apply Hs. rewrite Hsplit. by apply infix_app_l.
  - eapply IH; [by eapply partition_shorter| |done].
    intros Ha. apply Hs. rewrite Hsplit. by do 2 apply infix_app_r.
Qed.

Lemma replace_cons_nomatch t new c s :
  t ≠ [] → startswith t (c :: s) = false →
  replace t new (c :: s) = c :: replace t new s.
Proof.
  destruct t as [|o old']; [done|]. intros _ Hsw. rewrite (replace_unfold _ _ _ (c :: s)), (replace_unfold _ _ _ s).
  rewrite partition_unfold, Hsw.
  by destruct (partition (o :: old') s) as [[b a]|].
Qed.

Lemma replace_token_head t new s :
  t ≠ [] → replace t new (t ++ s) = new ++ replace t new s.
Proof.
  destruct t as [|o old']; [done|]. intros _.
  rewrite (replace_unfold _ _ _ (_ ++ s)), partition_unfold, startswith_app.
  by rewrite drop_app_length.
Qed.

Lemma replace_none t new s :
  t ≠ [] → ¬ infix t s → replace t new s = s.
Proof.
  destruct t as [|o old']; [done|]. intros _ Hs. rewrite replace_unfold.
  destruct (partition (o :: old') s) as [[b a]|] eqn:Hp; [|done].
  destruct Hs. exists b, a. by apply partition_Some.
Qed.

Lemma replace_skip t new x rest :
  t ≠ [] → starts_nowhere_in t x rest →
  replace t new (x ++ rest) = x ++ replace t new rest.
Proof.
  intros Ht. induction x as [|c x IH]; intros Hx; [done|]. simpl.
  rewrite replace_cons_nomatch; [|done|].
  - f_equal. apply IH. intros i Hi. apply (Hx (S i)). simpl. lia.
  - destruct (startswith _ _) eqn:Hsw; [|done].
    apply startswith_prefix in Hsw. destruct (Hx 0); [simpl; lia|done].
Qed.

(** A piece that does not overlap [t] hosts no start of an occurrence,
    whatever follows it. *)
Lemma inert_starts_nowhere t x rest :
  ¬ overlaps x t → starts_nowhere_in t x rest.
Proof.
  intros Hno i Hi [k Hk]. rewrite drop_app_le in Hk by lia.
  apply Hno. unfold overlaps.
  apply app_eq_inv in Hk as [(m & Hd & Hrest)|(m & Ht & Hrest)].
  - right; left. exists (take i x), m. by rewrite <- Hd, take_drop.
  - do 3 right. exists (drop i x). split; [|split].
    + intros Hnil. apply (f_equal length) in Hnil.
      rewrite length_drop in Hnil. simpl in Hnil. lia.
    + apply suffix_drop.
    + by exists m.
Qed.

(** A piece that does not overlap [t] cannot complete an occurrence begun
    before it. *)
Lemma inert_completes_nothing t x rest u :
  ¬ overlaps x t → u ≠ [] → u `suffix_of` t → ¬ u `prefix_of` x ++ rest.
Proof.
  intros Hno Hu [pre Ht] [k Hk]. apply Hno. unfold overlaps.
  symmetry in Hk.
  apply app_eq_inv in Hk as [(m & Hum & Hrest)|(m & Hx & Hk)].
  - left. exists pre, m. by rewrite Ht, Hum.
  - do 2 right; left. exists u. split; [done|]. split; [by exists m | by exists pre].
Qed.

(** A piece [p] that does not contain [t], followed by text that cannot
    complete an occurrence, hosts no start of an occurrence. *)
Lemma guarded_starts_nowhere t p rest :
  ¬ infix t p →
  (∀ u, u ≠ [] → u `suffix_of` t → ¬ u `prefix_of` rest) →
  starts_nowhere_in t p rest.
Proof.
  intros Hp Hrest i Hi [k Hk]. rewrite drop_app_le in Hk by lia.
  apply app_eq_inv in Hk as [(m & Hd & Hr)|(m & Ht & Hr)].
  - apply Hp. exists (take i p), m. by rewrite <- Hd, take_drop.
  - destruct m as [|c m].
    + apply Hp. exists (take i p), []. rewrite app_nil_r in *.
      by rewrite Ht, take_drop.
    + apply (Hrest (c :: m)); [done| by exists (drop i p) | by exists k].
Qed.

Lemma elem_of_replace t new s c :
  t ≠ [] → c ∈ replace t new s → c ∈ s ∨ c ∈ new.
Proof.
  destruct t as [|o old']; [done|]. intros _.
  induction s as [s IH] using lt_wf_length_ind. rewrite replace_unfold.
  destruct (partition (o :: old') s) as [[b a]|] eqn:Hp; [|by left].
  pose proof (partition_Some _ _ _ _ Hp) as Hs.
  rewrite !elem_of_app. intros [Hc|[Hc|Hc]].
  - left. rewrite Hs. set_solver.
  - by right.
  - apply IH in Hc as [Hc|Hc]; [|by right|by eapply partition_shorter].
    left. rewrite Hs. set_solver.
Qed.

(** Deleting a one-character token is filtering. *)
Lemma replace_delete_char (c : A) s :
  replace [c] [] s = filter (λ a : A, a ≠ c) s.
Proof.
  induction s as [|a s IH]; [done|].
  destruct (decide (a = c)) as [->|Hne].
  - change (c :: s) with ([c] ++ s) at 1.
    rewrite replace_token_head by done. simpl.
    rewrite filter_cons_False by naive_solver. done.
  - rewrite replace_cons_nomatch; [|done|].
    + rewrite filter_cons_True by done. by f_equal.
    + simpl. rewrite bool_decide_eq_false_2; [done|congruence].
Qed.
(** The Boolean test accepts nothing else. *)
Lemma clash_true x t : clash x t = true → overlaps x t.
Proof.
  unfold clash, overlaps. rewrite !orb_true_iff.
  intros [[[Hc|Hc]|Hh]|Ht].
  - left. by apply contains_infix.
  - right; left. by apply contains_infix.
  - do 2 right; left. apply existsb_exists in Hh as (k & Hk%in_seq & Hend).
    exists (take k x). split; [|split].
    + intros Hnil%(f_equal length). rewrite length_take in Hnil. simpl in Hnil. lia.
    + apply prefix_take.
    + by apply endswith_suffix.
  - do 3 right. apply existsb_exists in Ht as (k & Hk%in_seq & Hstart).
    exists (drop k x). split; [|split].
    + intros Hnil%(f_equal length). rewrite length_drop in Hnil. simpl in Hnil. lia.
    + apply suffix_drop.
    + by apply startswith_prefix.
Qed.

(** Two texts that overlap have a character in common. *)
Lemma overlaps_common x t :
  x ≠ [] → t ≠ [] → overlaps x t → ∃ c, c ∈ x ∧ c ∈ t.
Proof.
  intros Hx Ht [(a & b & ->)|[(a & b & ->)|[(p & Hp & [k ->] & [k' ->])
                                           |(q & Hq & [k ->] & [k' ->])]]].
  - destruct x as [|c x]; [done|]. exists c. split; [by left|].
    apply elem_of_app. right. by left.
  - destruct t as [|c t]; [done|]. exists c. split; [|by left].
    apply elem_of_app. right. by left.
  - destruct p as [|c p]; [done|]. exists c. split; [by left|].
    apply elem_of_app. right. by left.
  - destruct q as [|c q]; [done|]. exists c. split; [|by left].
    apply elem_of_app. right. by left.
Qed.

End str_facts.

(** ** Placeholders *)

Section placeholders.
Implicit Types x text ending : str.

Lemma token_nonempty p : token p ≠ [].
Proof. by destruct p. Qed.

Lemma inert_no_overlap x p : inert x = true → ¬ overlaps x (token p).
Proof.
  unfold inert. rewrite andb_true_iff, !negb_true_iff. intros [Hw Hd].
  destruct p; by apply clash_false.
Qed.

(** The text after a placeholder starts with an inert piece. *)
Lemma assemble_head shown segments ending :
  Forall (λ seg, inert seg.1 = true) segments → inert ending = true →
  ∃ x y, assemble shown segments ending = x ++ y ∧ inert x = true.
Proof.
  intros Hsegs Hend. destruct segments as [|[text p] rest].
  - exists ending, []. by rewrite app_nil_r.
  - apply Forall_cons in Hsegs as [Htext _]. by eexists text, _.
Qed.

(** After the first [replace], the workspace placeholders are filled. *)
Lemma replace_workspace_assemble w segments ending :
  Forall (λ seg, inert seg.1 = true) segments → inert ending = true →
  replace WORKSPACE_TOKEN w (assemble token segments ending)
  = assemble (substituted w DIAMOND_TOKEN) segments ending.
Proof.
  intros Hsegs Hend. induction segments as [|[text p] rest IH]; cbn [assemble].
  - apply replace_none; [done|]. intros Hi.
    apply (inert_no_overlap ending WorkspaceName Hend). right; by left.
  - apply Forall_cons in Hsegs as [Htext Hrest]. cbn [fst] in Htext.
    rewrite replace_skip; [|done|].
    2:{ apply inert_starts_nowhere. by apply (inert_no_overlap _ WorkspaceName). }
    f_equal. destruct p; cbn [token substituted].
    + rewrite replace_token_head by done. f_equal. by apply IH.
    + rewrite replace_skip; [by rewrite IH|done|].
      apply guarded_starts_nowhere.
      * apply contains_false. reflexivity.
      * destruct (assemble_head token rest ending Hrest Hend) as (x & y & -> & Hx).
        intros u Hu Hsuf.
        apply (inert_completes_nothing WORKSPACE_TOKEN); [|done..].
        by apply (inert_no_overlap _ WorkspaceName).
Qed.

(** After the second, the diamond placeholders are filled as well. *)
Lemma replace_diamond_assemble w d segments ending :
  inert w = true →
  Forall (λ seg, inert seg.1 = true) segments → inert ending = true →
  replace DIAMOND_TOKEN d (assemble (substituted w DIAMOND_TOKEN) segments ending)
  = assemble (substituted w d) segments ending.
Proof.
  intros Hw Hsegs Hend. induction segments as [|[text p] rest IH]; cbn [assemble].
  - apply replace_none; [done|]. intros Hi.
    apply (inert_no_overlap ending DiamondName Hend). right; by left.
  - apply Forall_cons in Hsegs as [Htext Hrest]. cbn [fst] in Htext.
    rewrite replace_skip; [|done|].
    2:{ apply inert_starts_nowhere. by apply (inert_no_overlap _ DiamondName). }
    f_equal. destruct p; cbn [token substituted].
    + rewrite replace_skip; [by rewrite IH|done|].
      apply inert_starts_nowhere. by apply (inert_no_overlap _ DiamondName).
    + rewrite replace_token_head by done. f_equal. by apply IH.
Qed.

Lemma render_no_token w d template p :
  inert w = true → inert d = true →
  contains (token p) (render template w d) = false.
Proof.
  intros Hw Hd. apply contains_false. unfold render.
  destruct p; cbn [token].
  - apply replace_absent; [done|by apply (inert_no_overlap _ WorkspaceName)|].
    apply replace_clean; [done|]. by apply (inert_no_overlap _ WorkspaceName).
  - apply replace_clean; [done|]. by apply (inert_no_overlap _ DiamondName).
Qed.
(** A non-empty text without any character of the tokens is inert: so is
    every non-empty value made of lower-case letters, digits and hyphens. *)
Lemma inert_of_foreign_chars x :
  x ≠ [] →
  (∀ c, c ∈ x → (c ∉ WORKSPACE_TOKEN) ∧ (c ∉ DIAMOND_TOKEN)) →
  inert x = true.
Proof.
  intros Hx Hchars. unfold inert.
  apply andb_true_iff; split; apply negb_true_iff;
    (destruct (clash x _) eqn:Hc; [exfalso|done]);
    apply clash_true, overlaps_common in Hc as (c & Hcx & Hct); try done;
    by destruct (Hchars c Hcx).
Qed.

Lemma inert_lower_case x :
  x ≠ [] →
  (∀ c, c ∈ x →
        between 97 122 c || isdigit_ascii c || bool_decide (c = "-"%char) = true) →
  inert x = true.
Proof.
  intros Hx Hchars. apply inert_of_foreign_chars; [done|].
  intros c Hc. specialize (Hchars c Hc).
  split; intros Hin; apply (bool_decide_pack _) in Hin;
    revert Hchars Hin; destruct c as [[] [] [] [] [] [] [] []]; by vm_compute.
Qed.

End placeholders.

(** ** C1: what the render step leaves of the placeholders *)

(** C1, as stated, fails: the value [__WORKSPACE_NAME__] passes the
    identifier check and is put in place of the token of the same text, so
    the rendered text of a template with both placeholders still holds a
    placeholder token. *)
Lemma render_keeps_token_valued_name :
  let template :=
    json_lit "{'name': '__WORKSPACE_NAME__', 'service': '__DIAMOND_NAME__'}" in
  let env_vars : env := {[ lit "WORKSPACE_NAME" := lit "__WORKSPACE_NAME__" ]} in
  contains WORKSPACE_TOKEN template = true
  ∧ contains DIAMOND_TOKEN template = true
  ∧ valid_workspace_name (workspace_name_of env_vars) = true
  ∧ contains WORKSPACE_TOKEN
      (render template (workspace_name_of env_vars) (diamond_name_of env_vars))
    = true.
Proof. vm_compute. done. Qed.

(** C1 (amended): when neither substituted value overlaps a placeholder
    token, the rendered text of every template holds no occurrence of either
    token; and for a template made of literal segments that overlap no token,
    separated by placeholders, the rendered text is the same sequence with
    the workspace value in the place of every [__WORKSPACE_NAME__] and the
    diamond value in the place of every [__DIAMOND_NAME__]. *)
Theorem render_fills_placeholders (env_vars : env) :
  inert (workspace_name_of env_vars) = true →
  inert (diamond_name_of env_vars) = true →
  (∀ template p,
     contains (token p)
       (render template (workspace_name_of env_vars) (diamond_name_of env_vars))
     = false)
  ∧ (∀ segments ending,
       Forall (λ seg, inert seg.1 = true) segments → inert ending = true →
       render (assemble token segments ending)
         (workspace_name_of env_vars) (diamond_name_of env_vars)
       = assemble
           (substituted (workspace_name_of env_vars) (diamond_name_of env_vars))
           segments ending).
Proof.
  intros Hw Hd. split.
  - intros template p. by apply render_no_token.
  - intros segments ending Hsegs Hend. unfold render.
    rewrite replace_workspace_assemble by done.
    by apply replace_diamond_assemble.
Qed.

Lemma render_fills_placeholders_witness :
  inert (workspace_name_of ∅) = true
  ∧ inert (diamond_name_of ∅) = true
  ∧ render
      (json_lit "{'name': '__WORKSPACE_NAME__', 'service': '__DIAMOND_NAME__'}")
      (workspace_name_of ∅) (diamond_name_of ∅)
    = json_lit "{'name': 'diamonds_project', 'service': 'ExampleDiamond'}".
Proof.
  assert (inert (workspace_name_of ∅) = true) as Hw by (vm_compute; reflexivity).
  assert (inert (diamond_name_of ∅) = true) as Hd by (vm_compute; reflexivity).
  split; [exact Hw|]. split; [exact Hd|].
  apply (proj2 (render_fills_placeholders ∅ Hw Hd)
           [(json_lit "{'name': '", WorkspaceName);
            (json_lit "', 'service': '", DiamondName)]
           (json_lit "'}")).
  - repeat constructor; vm_compute; reflexivity.
  - vm_compute; reflexivity.
Defined.

(** ** Running the script *)

Ltac run :=
  cbv [bind ret sys_exit log path_exists read_text write_text setenv logged];
  cbn [negb fs environ terminal].

Lemma bind_log {B} (msg : message) (c : color) (k : unit → M B) (w : world) :
  bind (log msg c) k w = k tt (logged w [(c, msg)]).
Proof. reflexivity. Qed.

Lemma logged_logged (w : world) (a b : list (color * message)) :
  logged (logged w a) b = logged w (a ++ b).
Proof. unfold logged. cbn [fs environ terminal]. by rewrite (assoc_L (++)). Qed.

Lemma isalnum_spec (s : str) :
  isalnum s = true ↔ s ≠ [] ∧ ∀ c, c ∈ s → isalnum_char c = true.
Proof.
  destruct s as [|a s]; [by split; [|intros []]|]. unfold isalnum.
  rewrite forallb_forall. split.
  - intros Hall. split; [done|]. intros c Hc. by apply Hall, list_elem_of_In.
  - intros [_ Hall] c Hc. by apply Hall, list_elem_of_In.
Qed.

Lemma isalnum_char_ascii (c : ascii) :
  (ord c < 128)%N → isalnum_char c = isdigit_ascii c || isalpha_ascii c.
Proof.
  destruct c as [[] [] [] [] [] [] [] []]; intros Hc; try reflexivity;
    vm_compute in Hc; discriminate.
Qed.

Lemma valid_workspace_name_filter (workspace_name : str) :
  valid_workspace_name workspace_name
  = isalnum (filter (λ c, c ≠ "-"%char) (filter (λ c, c ≠ "_"%char) workspace_name)).
Proof.
  unfold valid_workspace_name.
  change (lit "-") with ["-"%char]. change (lit "_") with ["_"%char].
  by rewrite !replace_delete_char.
Qed.

Lemma valid_workspace_name_spec (workspace_name : str) :
  valid_workspace_name workspace_name = true
  ↔ (∀ c, c ∈ workspace_name →
       isalnum_char c = true ∨ c = "_"%char ∨ c = "-"%char)
    ∧ (∃ c, c ∈ workspace_name ∧ isalnum_char c = true).
Proof.
  rewrite valid_workspace_name_filter, isalnum_spec. split.
  - intros [Hne Hall]. split.
    + intros c Hc.
      destruct (decide (c = "_"%char)) as [->|H1]; [by right; left|].
      destruct (decide (c = "-"%char)) as [->|H2]; [by right; right|].
      left. apply Hall. by rewrite !list_elem_of_filter.
    + destruct (filter _ (filter _ workspace_name)) as [|c l] eqn:Hf; [done|].
      exists c. assert (c ∈ c :: l) as Hc by left. rewrite <- Hf in Hc.
      split; [|apply Hall; left].
      by apply list_elem_of_filter in Hc as [_ [_ Hc]%list_elem_of_filter].
  - intros [Hall (c & Hc & Halnum)].
    assert (c ∈ filter (λ c, c ≠ "-"%char) (filter (λ c, c ≠ "_"%char) workspace_name))
      as Hin.
    { rewrite !list_elem_of_filter. split; [|split; [|done]]; by intros ->. }
    split; [by intros Hnil; rewrite Hnil in Hin; apply elem_of_nil in Hin|].
    intros c' [H2 [H1 Hc']%list_elem_of_filter]%list_elem_of_filter.
    by destruct (Hall c' Hc') as [?|[?|?]].
Qed.

Section script_facts.
Variable json_loads : str -> option json.
Variable host : platform.

Lemma generate_devcontainer_invalid_name (tp op : path) (env_vars : env) (w : world) :
  valid_workspace_name (workspace_name_of env_vars) = false →
  generate_devcontainer json_loads host tp op env_vars w
  = Exit 1 (logged w [(RED, MsgInvalidWorkspaceName (workspace_name_of env_vars));
                      (YELLOW, MsgWorkspaceNameRule)]).
Proof.
  intros Hv. unfold generate_devcontainer. rewrite Hv. run.
  by rewrite <- (assoc_L (++)).
Qed.

End script_facts.

(** ** C2: the identifier check on the workspace name *)

(** C2, as stated, fails in both directions: the value [_] has only
    characters of [A-Za-z0-9_-] and is rejected, and the value made of the
    letter U+00E9 has a character outside them and is accepted. *)
Lemma identifier_chars_are_not_the_gate :
  (forallb identifier_char (lit "_") = true
   ∧ valid_workspace_name (lit "_") = false)
  ∧ (forallb identifier_char ["233"%char] = false
     ∧ valid_workspace_name ["233"%char] = true).
Proof. vm_compute. done. Qed.

(** C2 (amended): the check on the workspace name returns true exactly when
    every character of the value is alphanumeric in the sense of
    [str.isalnum], an underscore or a hyphen, and at least one of them is
    alphanumeric; for a value of ASCII characters that is: every character in
    [A-Za-z0-9_-] and at least one letter or digit.  When the check returns
    false, [generate_devcontainer] exits with status 1, having printed two
    lines and touched no file. *)
Theorem workspace_name_gate (json_loads : str -> option json) (host : platform)
    (tp op : path) (env_vars : env) (w : world) :
  (valid_workspace_name (workspace_name_of env_vars) = true
   ↔ (∀ c, c ∈ workspace_name_of env_vars →
        isalnum_char c = true ∨ c = "_"%char ∨ c = "-"%char)
     ∧ (∃ c, c ∈ workspace_name_of env_vars ∧ isalnum_char c = true))
  ∧ ((∀ c, c ∈ workspace_name_of env_vars → (ord c < 128)%N) →
     (valid_workspace_name (workspace_name_of env_vars) = true
      ↔ forallb identifier_char (workspace_name_of env_vars) = true
        ∧ existsb (λ c, isalpha_ascii c || isdigit_ascii c)
            (workspace_name_of env_vars) = true))
  ∧ (valid_workspace_name (workspace_name_of env_vars) = false →
     ∃ w', generate_devcontainer json_loads host tp op env_vars w = Exit 1 w'
           ∧ fs w' = fs w ∧ environ w' = environ w).
Proof.
  split; [apply valid_workspace_name_spec|]. split.
  - intros Hascii. rewrite valid_workspace_name_spec, forallb_forall, existsb_exists.
    split.
    + intros [Hall (c & Hc & Halnum)]. split.
      * intros c' Hc'%list_elem_of_In. unfold identifier_char.
        destruct (Hall c' Hc') as [H|[->| ->]]; [|done..].
        rewrite isalnum_char_ascii in H by auto.
        apply orb_true_iff in H as [-> | ->]; [|done].
        by rewrite orb_true_r.
      * exists c. split; [by apply list_elem_of_In|].
        rewrite isalnum_char_ascii in Halnum by auto.
        by rewrite orb_comm.
    + intros [Hall (c & Hc%list_elem_of_In & Halnum)]. split.
      * intros c' Hc'. specialize (Hall c' (proj1 (list_elem_of_In _ _) Hc')).
        unfold identifier_char in Hall. rewrite isalnum_char_ascii by auto.
        rewrite !orb_true_iff, !bool_decide_eq_true in Hall.
        destruct Hall as [[[->| ->]|?]|?]; rewrite ?orb_true_r; auto.
      * exists c. split; [done|]. rewrite isalnum_char_ascii by auto.
        by rewrite orb_comm.
  - intros Hv. eexists. split; [by apply generate_devcontainer_invalid_name|done].
Qed.

Lemma workspace_name_gate_witness :
  let env_vars : env := {[ lit "WORKSPACE_NAME" := lit "My Project!" ]} in
  valid_workspace_name (workspace_name_of env_vars) = false
  ∧ ∃ w', generate_devcontainer RefJson.json_loads Posix
            [lit "devcontainer.template.json"] [lit "devcontainer.json"]
            env_vars (World ∅ ∅ []) = Exit 1 w'
          ∧ fs w' = ∅ ∧ environ w' = ∅.
Proof.
  intros env_vars.
  assert (valid_workspace_name (workspace_name_of env_vars) = false) as Hv
    by (vm_compute; reflexivity).
  split; [exact Hv|].
  exact (proj2 (proj2 (workspace_name_gate RefJson.json_loads Posix
           [lit "devcontainer.template.json"] [lit "devcontainer.json"]
           env_vars (World ∅ ∅ []))) Hv).
Defined.

(** ** Reading the [.env] file *)

Lemma startswith_singleton (q c : ascii) (rest : str) :
  startswith [q] (c :: rest) = bool_decide (q = c).
Proof. simpl. by rewrite andb_true_r. Qed.

Lemma endswith_singleton (q : ascii) (value : str) :
  endswith [q] value = bool_decide (last value = Some q).
Proof.
  apply Bool.eq_iff_eq_true. rewrite endswith_suffix, bool_decide_eq_true.
  split.
  - intros [k ->]. by rewrite last_snoc.
  - intros Hl. destruct value as [|c v _] using rev_ind; [done|].
    rewrite last_snoc in Hl. injection Hl as ->. by exists v.
Qed.

Lemma slice_1_m1_cons {A} (c : A) (rest : list A) :
  slice_1_m1 (c :: rest) = take (length rest - 1) rest.
Proof.
  unfold slice_1_m1. cbn [length drop]. rewrite drop_0. f_equal; lia.
Qed.

Lemma unquote_spec (value : str) : unquote value = spec_unquote value.
Proof.
  unfold unquote, spec_unquote, DOUBLE_QUOTE, SINGLE_QUOTE, is_quote.
  destruct value as [|c rest]; [done|].
  rewrite !startswith_singleton, !endswith_singleton, slice_1_m1_cons.
  destruct (decide (c = "034"%char)) as [->|Hd].
  - rewrite !bool_decide_eq_true_2 by done. simpl.
    by destruct (bool_decide (last _ = _)).
  - rewrite (bool_decide_eq_false_2 ("034"%char = c)) by done.
    rewrite (bool_decide_eq_false_2 (c = "034"%char)) by done. simpl.
    destruct (decide (c = "039"%char)) as [->|Hs].
    + by rewrite !bool_decide_eq_true_2 by done.
    + rewrite (bool_decide_eq_false_2 ("039"%char = c)) by done.
      by rewrite (bool_decide_eq_false_2 (c = "039"%char)) by done.
Qed.

Lemma partition_char (c : ascii) (s : str) :
  partition [c] s
  = match list_find (λ x, x = c) s with
    | Some (i, _) => Some (take i s, drop (S i) s)
    | None => None
    end.
Proof.
  induction s as [|x s IH]; [done|].
  rewrite partition_unfold, startswith_singleton. simpl.
  destruct (decide (x = c)) as [->|Hne].
  - rewrite bool_decide_eq_true_2 by done. by rewrite ?drop_0.
  - rewrite bool_decide_eq_false_2 by congruence.
    rewrite IH. by destruct (list_find _ s) as [[i y]|].
Qed.

(** [parse_line] binds what the specification says the line binds. *)
Lemma parse_line_spec (line : str) :
  spec_binding line
  = match parse_line line with
    | Bind key value => Some (key, value)
    | Skip | Invalid _ => None
    end.
Proof.
  unfold spec_binding, parse_line, contains, NUMBER_SIGN, EQUALS_SIGN.
  change (lit "#") with ["#"%char]. change (lit "=") with ["="%char].
  destruct (strip line) as [|c l] eqn:Hl.
  { by rewrite bool_decide_eq_true_2. }
  rewrite (bool_decide_eq_false_2 (c :: l = [])) by done.
  rewrite startswith_singleton, orb_false_l.
  destruct (decide (c = "#"%char)) as [->|Hc].
  - by rewrite !bool_decide_eq_true_2 by done.
  - rewrite (bool_decide_eq_false_2 (c = "#"%char)) by done.
    rewrite (bool_decide_eq_false_2 ("#"%char = c)) by done.
    rewrite partition_char.
    destruct (list_find (λ x, x = "="%char) (c :: l)) as [[i y]|]; [|done].
    by rewrite unquote_spec.
Qed.

Lemma apply_line_lookup (env_vars : env) (line key : str) :
  apply_line env_vars line !! key
  = match spec_binding line with
    | Some (k, v) => if decide (k = key) then Some v else env_vars !! key
    | None => env_vars !! key
    end.
Proof.
  rewrite parse_line_spec. unfold apply_line.
  destruct (parse_line line); [done| |done].
  by rewrite lookup_insert.
Qed.

Lemma list_rev_case {A} (l : list A) : l = [] ∨ ∃ l' x, l = l' ++ [x].
Proof. induction l using rev_ind; eauto. Qed.

(** The mapping after the loop: the last line that binds a key wins. *)
Lemma foldl_apply_line_lookup (lines : list str) (key value : str) :
  foldl apply_line ∅ lines !! key = Some value
  ↔ ∃ before line after,
      lines = before ++ line :: after
      ∧ spec_binding line = Some (key, value)
      ∧ ∀ l v, l ∈ after → spec_binding l ≠ Some (key, v).
Proof.
  revert value. induction lines as [|l lines IH] using rev_ind; intros value.
  - cbn [foldl]. rewrite lookup_empty. split; [done|].
    intros (before & line & after & Heq & _). by destruct before.
  - rewrite foldl_app. cbn [foldl]. rewrite apply_line_lookup.
    destruct (spec_binding l) as [[k v]|] eqn:Hl.
    + destruct (decide (k = key)) as [->|Hne].
      * split.
        -- intros [= ->]. exists lines, l, []. split; [done|]. split; [done|].
           intros l' v' Hin. by apply elem_of_nil in Hin.
        -- intros (before & line & after & Heq & Hb & Hafter).
           destruct (list_rev_case after) as [->|(after' & a & ->)].
           ++ apply app_inj_tail in Heq as [_ <-]. congruence.
           ++ rewrite app_comm_cons, (assoc_L (++)) in Heq.
              apply app_inj_tail in Heq as [_ <-].
              destruct (Hafter l v); [|done]. apply elem_of_app. right. left.
      * rewrite IH. split.
        -- intros (before & line & after & -> & Hb & Hafter).
           exists before, line, (after ++ [l]). split; [by rewrite <- (assoc_L (++))|].
           split; [done|]. intros l' v' [Hin|Hin%list_elem_of_singleton]%elem_of_app.
           ++ by apply Hafter.
           ++ subst l'. congruence.
        -- intros (before & line & after & Heq & Hb & Hafter).
           destruct (list_rev_case after) as [->|(after' & a & ->)].
           ++ apply app_inj_tail in Heq as [_ <-]. congruence.
           ++ rewrite app_comm_cons, (assoc_L (++)) in Heq.
              apply app_inj_tail in Heq as [-> <-].
              exists before, line, after'. split; [done|]. split; [done|].
              intros l' v' Hin. apply Hafter. apply elem_of_app. by left.
    + rewrite IH. split.
      * intros (before & line & after & -> & Hb & Hafter).
        exists before, line, (after ++ [l]). split; [by rewrite <- (assoc_L (++))|].
        split; [done|]. intros l' v' [Hin|Hin%list_elem_of_singleton]%elem_of_app.
        -- by apply Hafter.
        -- subst l'. congruence.
      * intros (before & line & after & Heq & Hb & Hafter).
        destruct (list_rev_case after) as [->|(after' & a & ->)].
        -- apply app_inj_tail in Heq as [_ <-]. congruence.
        -- rewrite app_comm_cons, (assoc_L (++)) in Heq.
           apply app_inj_tail in Heq as [-> <-].
           exists before, line, after'. split; [done|]. split; [done|].
           intros l' v' Hin. apply Hafter. apply elem_of_app. by left.
Qed.

Section env_file_facts.
Variable host : platform.

(** The loop never exits; it returns the folded mapping and only prints. *)
Lemma load_lines_run (lines : list str) (line_num : nat) (env_vars : env) (w : world) :
  ∃ entries,
    load_lines line_num lines env_vars w
    = Return (foldl apply_line env_vars lines) (logged w entries).
Proof.
  revert line_num env_vars w.
  induction lines as [|line lines IH]; intros line_num env_vars w; cbn [load_lines foldl].
  - exists []. run. by rewrite app_nil_r; destruct w.
  - unfold apply_line at 2. destruct (parse_line line) as [|key value|line'].
    + apply IH.
    + apply IH.
    + run.
      match goal with |- context [load_lines ?n ?ls ?e ?w0] =>
        destruct (IH n e w0) as [entries ->] end.
      exists ((YELLOW, MsgInvalidLine line_num line') :: entries).
      run. by rewrite <- (assoc_L (++)).
Qed.

Lemma universal_newlines_encode (text : str) :
  CR ∉ text → universal_newlines (encode_newlines host text) = text.
Proof.
  induction text as [|c text IH]; [done|].
  intros [Hc Htext]%not_elem_of_cons. cbn [encode_newlines flat_map].
  fold (encode_newlines host text).
  destruct (decide (c = LF)) as [->|Hlf].
  - rewrite bool_decide_eq_true_2 by done. destruct host; simpl.
    + by rewrite IH.
    + by rewrite IH.
  - rewrite bool_decide_eq_false_2 by done. simpl.
    rewrite bool_decide_eq_false_2 by done. by rewrite IH.
Qed.

Lemma default_content_no_CR : CR ∉ default_content.
Proof. apply (bool_decide_unpack _). by vm_compute. Qed.

Lemma load_env_file_present (p : path) (w : world) (raw : str) :
  fs w !! p = Some raw →
  ∃ entries,
    load_env_file host p w
    = Return (foldl apply_line ∅ (readlines (universal_newlines raw)))
        (logged w entries).
Proof.
  intros Hp. unfold load_env_file. run. rewrite Hp.
  rewrite bool_decide_eq_true_2 by done. rewrite Hp.
  cbn [fmap option_fmap option_map].
  destruct (load_lines_run (readlines (universal_newlines raw)) 1 ∅ w)
    as [entries Hrun].
  exists entries. by rewrite Hrun.
Qed.

Lemma load_env_file_absent (p : path) (w : world) :
  fs w !! p = None →
  ∃ entries,
    load_env_file host p w
    = Return (foldl apply_line ∅ (readlines default_content))
        (World (<[p := encode_newlines host default_content]> (fs w))
           (environ w) (terminal w ++ entries)).
Proof.
  intros Hp. unfold load_env_file, create_default_env. run. rewrite Hp.
  rewrite bool_decide_eq_false_2 by (by intros [? ?]). cbn [fs].
  rewrite lookup_insert_eq. cbn [fmap option_fmap option_map].
  rewrite universal_newlines_encode by apply default_content_no_CR.
  match goal with |- context [load_lines ?n ?ls ?e ?w0] =>
    destruct (load_lines_run ls n e w0) as [entries ->] end.
  eexists. run. by rewrite <- !(assoc_L (++)).
Qed.

End env_file_facts.

(** ** Generating and verifying *)

Section generate_facts.
Variable json_loads : str -> option json.
Variable host : platform.

(** Every run of [generate_devcontainer], case by case. *)
Lemma generate_devcontainer_run (tp op : path) (env_vars : env) (w : world) :
  generate_devcontainer json_loads host tp op env_vars w
  = if negb (valid_workspace_name (workspace_name_of env_vars)) then
      Exit 1 (logged w [(RED, MsgInvalidWorkspaceName (workspace_name_of env_vars));
                        (YELLOW, MsgWorkspaceNameRule)])
    else match fs w !! tp with
         | None =>
             Exit 1 (logged w [(RED, MsgTemplateNotFound tp);
                               (YELLOW, MsgEnsureTemplate)])
         | Some raw =>
             let output :=
               render (universal_newlines raw)
                 (workspace_name_of env_vars) (diamond_name_of env_vars) in
             match json_loads output with
             | None => Exit 1 (logged w [(RED, MsgInvalidJson)])
             | Some _ => Return tt (generated host op env_vars output w)
             end
         end.
Proof.
  unfold generate_devcontainer, generated.
  destruct (valid_workspace_name _); run.
  - destruct (fs w !! tp) as [raw|] eqn:Htp.
    + rewrite bool_decide_eq_true_2 by done.
      cbn [negb]. rewrite Htp. cbn [fmap option_fmap option_map].
      destruct (json_loads _); [|done].
      by rewrite <- !(assoc_L (++)).
    + rewrite bool_decide_eq_false_2 by (by intros [? ?]).
      cbn [negb]. by rewrite <- !(assoc_L (++)).
  - by rewrite <- !(assoc_L (++)).
Qed.

(** Whatever makes [generate_devcontainer] exit, the status is 1 and no file
    has been touched. *)
Lemma generate_devcontainer_exit (tp op : path) (env_vars : env) (w w' : world)
    (code : Z) :
  generate_devcontainer json_loads host tp op env_vars w = Exit code w' →
  code = 1%Z ∧ fs w' = fs w ∧ environ w' = environ w.
Proof.
  rewrite generate_devcontainer_run.
  destruct (negb _); [by intros [= <- <-]|].
  destruct (fs w !! tp) as [raw|]; [|by intros [= <- <-]].
  cbn zeta. destruct (json_loads _); [done|by intros [= <- <-]].
Qed.

Lemma generate_devcontainer_return (tp op : path) (env_vars : env) (w w' : world) :
  generate_devcontainer json_loads host tp op env_vars w = Return tt w' →
  ∃ raw config,
    valid_workspace_name (workspace_name_of env_vars) = true
    ∧ fs w !! tp = Some raw
    ∧ json_loads (render (universal_newlines raw)
                    (workspace_name_of env_vars) (diamond_name_of env_vars))
      = Some config
    ∧ w' = generated host op env_vars
             (render (universal_newlines raw)
                (workspace_name_of env_vars) (diamond_name_of env_vars)) w.
Proof.
  rewrite generate_devcontainer_run.
  destruct (valid_workspace_name _); [|done]. cbn [negb].
  destruct (fs w !! tp) as [raw|]; [|done].
  cbn zeta. destruct (json_loads _) as [config|] eqn:Hj; [|done].
  intros [= <-]. by exists raw, config.
Qed.

(** [check_fields] never exits. *)
Lemma check_fields_run (config : json) (fields : list str) (w : world) :
  ∃ ok entries, check_fields config fields w = Return ok (logged w entries).
Proof.
  induction fields as [|field fields IH]; cbn [check_fields].
  - exists true, []. run. by rewrite app_nil_r; destruct w.
  - destruct (py_in field config) as [[|]|]; [done|..].
    + exists false, [(YELLOW, MsgMissingField field)]. by run.
    + exists false, [(RED, MsgVerifyError)]. by run.
Qed.


Lemma check_fields_present (config : json) (fields : list str) (w : world) :
  Forall (λ field, py_in field config = Some true) fields →
  check_fields config fields w = Return true w.
Proof.
  induction 1 as [|field fields Hf _ IH]; cbn [check_fields]; [done|].
  by rewrite Hf.
Qed.

Lemma verify_generated_config_run (op : path) (w : world) :
  verify_generated_config json_loads op w
  = match (universal_newlines <$> fs w !! op) ≫= json_loads with
    | Some config => check_fields config required_fields w
    | None => Return false (logged w [(RED, MsgVerifyError)])
    end.
Proof.
  unfold verify_generated_config. run.
  by destruct (_ ≫= json_loads).
Qed.

(** The last block of [main] never exits. *)
Lemma main_verify_run (dir : path) (w : world) :
  ∃ ok entries,
    verify_generated_config json_loads (output_path dir)
      (logged w [(BLUE, MsgVerifying)])
    = Return ok (logged w ((BLUE, MsgVerifying) :: entries))
    ∧ main_verify json_loads dir w
      = Return tt
          (logged w
             ((BLUE, MsgVerifying) :: entries
              ++ [if ok then (GREEN, MsgConfigValid) else (YELLOW, MsgConfigIssues);
                  (NC, MsgBlank); (GREEN, MsgRule); (GREEN, MsgComplete);
                  (GREEN, MsgRule); (NC, MsgBlank); (BLUE, MsgWillStart);
                  (NC, MsgBlank)])).
Proof.
  assert (∃ ok entries,
    verify_generated_config json_loads (output_path dir)
      (logged w [(BLUE, MsgVerifying)])
    = Return ok (logged (logged w [(BLUE, MsgVerifying)]) entries))
    as (ok & entries & Hv).
  { rewrite verify_generated_config_run.
    destruct (_ ≫= json_loads); [apply check_fields_run|by eexists _, _]. }
  exists ok, entries. split.
  - rewrite Hv. run. by rewrite <- (assoc_L (++)).
  - unfold main_verify at 1. rewrite bind_log. cbn beta.
    unfold bind at 1. rewrite Hv.
    destruct ok; run; f_equal; f_equal;
      rewrite <- !(assoc_L (++)); cbn [app]; done.
Qed.

End generate_facts.

(** ** The whole run *)

Lemma joinpath_inj (dir : path) (a b : string) :
  joinpath dir a = joinpath dir b → lit a = lit b.
Proof. unfold joinpath. by intros [= ?]%app_inv_head. Qed.

Lemma output_path_not_env_path (dir : path) : output_path dir ≠ env_path dir.
Proof. by intros ?%joinpath_inj. Qed.

Lemma template_path_not_env_path (dir : path) : template_path dir ≠ env_path dir.
Proof. by intros ?%joinpath_inj. Qed.

Lemma output_path_not_template_path (dir : path) :
  output_path dir ≠ template_path dir.
Proof. by intros ?%joinpath_inj. Qed.

Section main_facts.
Variable json_loads : str -> option json.
Variable host : platform.

(** The text [load_env_file] parses, and the files it leaves. *)
Lemma main_load_run (dir : path) (w0 : world) :
  ∃ entries,
    main_load host dir w0
    = Return
        (foldl apply_line ∅
           (readlines (match fs w0 !! env_path dir with
                       | Some raw => universal_newlines raw
                       | None => default_content
                       end)))
        (World (match fs w0 !! env_path dir with
                | Some _ => fs w0
                | None => <[env_path dir := encode_newlines host default_content]> (fs w0)
                end)
           (environ w0) (terminal w0 ++ entries)).
Proof.
  unfold main_load.
  set (w := logged w0 [(BLUE, MsgRule); (BLUE, MsgTitle); (BLUE, MsgRule);
                       (NC, MsgBlank); (BLUE, MsgLoadingEnv)]).
  assert (∃ entries,
    load_env_file host (env_path dir) w
    = Return
        (foldl apply_line ∅
           (readlines (match fs w0 !! env_path dir with
                       | Some raw => universal_newlines raw
                       | None => default_content
                       end)))
        (World (match fs w0 !! env_path dir with
                | Some _ => fs w0
                | None => <[env_path dir := encode_newlines host default_content]> (fs w0)
                end)
           (environ w0) (terminal w ++ entries))) as [entries Hload].
  { destruct (fs w0 !! env_path dir) as [raw|] eqn:Hp.
    - destruct (load_env_file_present host (env_path dir) w raw Hp) as [entries ->].
      by exists entries.
    - destruct (load_env_file_absent host (env_path dir) w Hp) as [entries ->].
      by exists entries. }
  eexists. do 5 (rewrite bind_log; cbn beta). rewrite !logged_logged. cbn [app].
  fold w. unfold bind at 1. rewrite Hload. run.
  subst w. unfold logged. cbn [terminal]. by rewrite <- !(assoc_L (++)).
Qed.

Lemma main_load_fs (dir : path) (w0 w1 : world) (env_vars : env) (p : path) :
  main_load host dir w0 = Return env_vars w1 →
  p ≠ env_path dir → fs w1 !! p = fs w0 !! p.
Proof.
  destruct (main_load_run dir w0) as [entries ->]. intros [= _ <-] Hp.
  cbn [fs]. destruct (fs w0 !! env_path dir); [done|].
  by rewrite lookup_insert_ne.
Qed.

Lemma main_generate_run (dir : path) (env_vars : env) (w1 : world) :
  main_generate json_loads host dir env_vars w1
  = match generate_devcontainer json_loads host
            (template_path dir) (output_path dir) env_vars
            (logged w1 [(BLUE, MsgGenerating)]) with
    | Return _ w => Return tt (logged w [(NC, MsgBlank)])
    | Exit code w => Exit code w
    end.
Proof.
  unfold main_generate. rewrite bind_log. cbn beta. unfold bind at 1.
  by destruct (generate_devcontainer _ _ _ _ _ _).
Qed.

Lemma main_run (dir : path) (w0 : world) :
  main json_loads host dir w0
  = match main_load host dir w0 with
    | Return env_vars w1 =>
        match main_generate json_loads host dir env_vars w1 with
        | Return _ w2 => main_verify json_loads dir w2
        | Exit code w => Exit code w
        end
    | Exit code w => Exit code w
    end.
Proof.
  unfold main. unfold bind at 1. destruct (main_load host dir w0); [|done].
  unfold bind at 1. by destruct (main_generate _ _ _ _ _).
Qed.

End main_facts.

(** ** C5: what [load_env_file] loads *)



(** ** C9: the quotes around a value *)

(** C9: [unquote] removes the first and the last character of a value whose
    first and last characters are the same quote mark, and changes no other
    value.  So one layer goes and the next stays, a value that is a single
    quote character becomes empty, and a value with mismatched quotes is
    kept as it is. *)
Theorem unquote_one_layer :
  (∀ q middle, is_quote q = true → unquote (q :: middle ++ [q]) = middle)
  ∧ (∀ q, is_quote q = true → unquote [q] = [])
  ∧ (∀ value,
       (∀ q, is_quote q = true → head value = Some q → last value = Some q → False) →
       unquote value = value)
  ∧ (∀ q middle,
       is_quote q = true →
       unquote (q :: q :: middle ++ [q; q]) = q :: middle ++ [q])
  ∧ (∀ middle,
       unquote (DOUBLE_QUOTE ++ middle ++ SINGLE_QUOTE)
       = DOUBLE_QUOTE ++ middle ++ SINGLE_QUOTE)
  ∧ parse_line (lit "KEY=" ++ DOUBLE_QUOTE) = Bind (lit "KEY") []
  ∧ parse_line (lit "KEY='") = Bind (lit "KEY") [].
Proof.
  assert (∀ q middle, is_quote q = true → unquote (q :: middle ++ [q]) = middle)
    as Hlayer.
  { intros q middle Hq. rewrite unquote_spec. unfold spec_unquote. rewrite Hq.
    rewrite app_comm_cons, last_snoc, bool_decide_eq_true_2 by done.
    cbn [andb]. rewrite length_app. cbn [length].
    by rewrite take_app_length' by lia. }
  split; [exact Hlayer|]. split; [|split; [|split; [|split]]].
  - intros q Hq. rewrite unquote_spec. unfold spec_unquote. rewrite Hq.
    by rewrite bool_decide_eq_true_2.
  - intros value Hno. rewrite unquote_spec. unfold spec_unquote.
    destruct value as [|c rest]; [done|].
    destruct (is_quote c) eqn:Hq; [|done].
    rewrite bool_decide_eq_false_2; [done|]. intros Hl. by apply (Hno c).
  - intros q middle Hq.
    change (q :: q :: middle ++ [q; q]) with (q :: (q :: middle ++ [q; q])).
    replace (q :: middle ++ [q; q]) with ((q :: middle ++ [q]) ++ [q])
      by (by rewrite <- app_comm_cons, <- (assoc_L (++))).
    by apply Hlayer.
  - intros middle. rewrite unquote_spec. unfold spec_unquote, DOUBLE_QUOTE, SINGLE_QUOTE.
    cbn [app is_quote]. rewrite app_comm_cons, last_snoc.
    by rewrite (bool_decide_eq_false_2 (Some _ = Some _)).
  - split; by vm_compute.
Qed.

(** ** C6: the default [.env] file *)



(** ** C7: the default values *)

(** C7: when the mapping has no [WORKSPACE_NAME], the value the render step
    puts in the place of [__WORKSPACE_NAME__] is [diamonds_project]; when it
    has no [DIAMOND_NAME], the value put in the place of [__DIAMOND_NAME__]
    is [ExampleDiamond]; and the text [generate_devcontainer] writes when it
    returns is the template with these two replacements made. *)
Theorem render_uses_defaults (json_loads : str -> option json) (host : platform)
    (tp op : path) (env_vars : env) :
  (env_vars !! lit "WORKSPACE_NAME" = None →
   ∀ template,
     render template (workspace_name_of env_vars) (diamond_name_of env_vars)
     = replace DIAMOND_TOKEN (diamond_name_of env_vars)
         (replace WORKSPACE_TOKEN (lit "diamonds_project") template))
  ∧ (env_vars !! lit "DIAMOND_NAME" = None →
     ∀ template,
       render template (workspace_name_of env_vars) (diamond_name_of env_vars)
       = replace DIAMOND_TOKEN (lit "ExampleDiamond")
           (replace WORKSPACE_TOKEN (workspace_name_of env_vars) template))
  ∧ (∀ w w',
       generate_devcontainer json_loads host tp op env_vars w = Return tt w' →
       ∃ raw,
         fs w !! tp = Some raw
         ∧ fs w' !! op
           = Some (encode_newlines host
                     (render (universal_newlines raw)
                        (workspace_name_of env_vars) (diamond_name_of env_vars)))).
Proof.
  split; [|split].
  - intros Hw template. unfold render, workspace_name_of, dict_get. by rewrite Hw.
  - intros Hd template. unfold render, diamond_name_of, dict_get. by rewrite Hd.
  - intros w w' (raw & config & _ & Htp & _ & ->)%generate_devcontainer_return.
    exists raw. split; [done|]. apply lookup_insert_eq.
Qed.

Lemma render_uses_defaults_witness :
  (∅ : env) !! lit "WORKSPACE_NAME" = None
  ∧ (∅ : env) !! lit "DIAMOND_NAME" = None
  ∧ generate_devcontainer RefJson.json_loads Posix
      (template_path Example.dir) (output_path Example.dir) ∅
      (Example.checkout Example.short_template)
    = Return tt
        (generated Posix (output_path Example.dir) ∅
           (json_lit "{'name': 'diamonds_project', 'service': 'ExampleDiamond'}")
           (Example.checkout Example.short_template))
  ∧ render Example.short_template (workspace_name_of ∅) (diamond_name_of ∅)
    = replace DIAMOND_TOKEN (lit "ExampleDiamond")
        (replace WORKSPACE_TOKEN (lit "diamonds_project") Example.short_template)
  ∧ ∃ raw,
      fs (Example.checkout Example.short_template) !! template_path Example.dir
      = Some raw
      ∧ fs (generated Posix (output_path Example.dir) ∅
              (json_lit "{'name': 'diamonds_project', 'service': 'ExampleDiamond'}")
              (Example.checkout Example.short_template))
          !! output_path Example.dir
        = Some (encode_newlines Posix
                  (render (universal_newlines raw)
                     (workspace_name_of ∅) (diamond_name_of ∅))).
Proof.
  assert ((∅ : env) !! lit "WORKSPACE_NAME" = None) as Hw by apply lookup_empty.
  assert ((∅ : env) !! lit "DIAMOND_NAME" = None) as Hd by apply lookup_empty.
  assert (generate_devcontainer RefJson.json_loads Posix
            (template_path Example.dir) (output_path Example.dir) ∅
            (Example.checkout Example.short_template)
          = Return tt
              (generated Posix (output_path Example.dir) ∅
                 (json_lit "{'name': 'diamonds_project', 'service': 'ExampleDiamond'}")
                 (Example.checkout Example.short_template))) as Hrun
    by (vm_compute; exact eq_refl).
  destruct (render_uses_defaults RefJson.json_loads Posix
              (template_path Example.dir) (output_path Example.dir) ∅)
    as (Hrw & Hrd & Hgen).
  split; [exact Hw|]. split; [exact Hd|]. split; [exact Hrun|].
  split; [rewrite (Hrd Hd); unfold workspace_name_of, dict_get; by rewrite Hw|].
  exact (Hgen _ _ Hrun).
Defined.

(** ** C3: a rendered text that is not JSON *)

(** C3: when the rendered text does not parse as JSON,
    [generate_devcontainer] exits with status 1 and leaves every file as it
    was; so does the whole run, whose only possible write is the default
    [.env] file: the file at the output path is what it was before the run. *)
Theorem invalid_json_aborts_before_write (json_loads : str -> option json)
    (host : platform) (dir : path) (w0 w1 : world) (env_vars : env) (raw : str) :
  main_load host dir w0 = Return env_vars w1 →
  fs w1 !! template_path dir = Some raw →
  json_loads (render (universal_newlines raw)
                (workspace_name_of env_vars) (diamond_name_of env_vars)) = None →
  (∀ w, fs w = fs w1 →
     ∃ w', generate_devcontainer json_loads host
             (template_path dir) (output_path dir) env_vars w = Exit 1 w'
           ∧ fs w' = fs w)
  ∧ exit_status (main json_loads host dir w0) = 1%Z
  ∧ fs (final_world (main json_loads host dir w0)) = fs w1
  ∧ fs (final_world (main json_loads host dir w0)) !! output_path dir
    = fs w0 !! output_path dir.
Proof.
  intros Hload Htp Hjson.
  assert (∀ w, fs w = fs w1 →
     ∃ w', generate_devcontainer json_loads host
             (template_path dir) (output_path dir) env_vars w = Exit 1 w'
           ∧ fs w' = fs w) as Hgen.
  { intros w Hw. rewrite generate_devcontainer_run.
    destruct (negb _); [by eexists|]. rewrite Hw, Htp. cbn zeta.
    rewrite Hjson. by eexists. }
  split; [exact Hgen|].
  rewrite main_run, Hload, main_generate_run.
  destruct (Hgen (logged w1 [(BLUE, MsgGenerating)]) eq_refl) as (w' & -> & Hfs).
  cbn [exit_status final_world]. split; [done|]. split; [done|].
  rewrite Hfs. cbn [logged fs].
  by apply (main_load_fs host dir w0 w1 env_vars), output_path_not_env_path.
Qed.

Lemma invalid_json_aborts_before_write_witness :
  ∃ w1,
    main_load Posix Example.dir (Example.checkout Example.unquoted_template)
    = Return Example.default_env w1
    ∧ fs w1 !! template_path Example.dir = Some Example.unquoted_template
    ∧ RefJson.json_loads
        (render (universal_newlines Example.unquoted_template)
           (workspace_name_of Example.default_env)
           (diamond_name_of Example.default_env)) = None
    ∧ exit_status (main RefJson.json_loads Posix Example.dir
                     (Example.checkout Example.unquoted_template)) = 1%Z
    ∧ fs (final_world (main RefJson.json_loads Posix Example.dir
                         (Example.checkout Example.unquoted_template)))
        !! output_path Example.dir
      = None.
Proof.
  destruct (main_load_run Posix Example.dir
              (Example.checkout Example.unquoted_template)) as [entries Hload].
  unfold Example.checkout in Hload at 2 3. cbn [fs] in Hload.
  rewrite lookup_singleton_ne in Hload by apply template_path_not_env_path.
  eexists. split; [exact Hload|].
  assert (RefJson.json_loads
            (render (universal_newlines Example.unquoted_template)
               (workspace_name_of Example.default_env)
               (diamond_name_of Example.default_env)) = None) as Hjson
    by (vm_compute; exact eq_refl).
  match type of Hload with _ = Return _ ?w1 =>
    assert (fs w1 !! template_path Example.dir = Some Example.unquoted_template)
      as Htp end.
  { cbn [fs]. rewrite lookup_insert_ne by (by intros ?%symmetry%template_path_not_env_path).
    apply lookup_singleton_eq. }
  split; [exact Htp|]. split; [exact Hjson|].
  destruct (invalid_json_aborts_before_write RefJson.json_loads Posix _ _ _ _ _
              Hload Htp Hjson) as (_ & Hexit & _ & Hout).
  split; [exact Hexit|]. rewrite Hout.
  apply lookup_singleton_ne. by intros ?%symmetry%output_path_not_template_path.
Defined.

(** ** C4: a generated document that lacks a required field *)




(** ** C8: reading the generated file back *)

Lemma universal_newlines_no_CR (raw : str) : CR ∉ universal_newlines raw.
Proof.
  induction raw as [raw IH] using lt_wf_length_ind.
  destruct raw as [|c rest]; [by apply not_elem_of_nil|].
  cbn [universal_newlines]. destruct (bool_decide (c = CR)) eqn:Hc.
  - apply not_elem_of_cons. split; [done|].
    destruct rest as [|c' rest']; [by apply not_elem_of_nil|].
    destruct (bool_decide (c' = LF)); apply IH; simpl; lia.
  - apply bool_decide_eq_false in Hc. apply not_elem_of_cons.
    split; [done|]. apply IH. simpl; lia.
Qed.

Lemma elem_of_readlines (text line : str) (c : ascii) :
  line ∈ readlines text → c ∈ line → c ∈ text.
Proof.
  revert line. induction text as [|c0 text IH]; intros line; cbn [readlines].
  - by intros ?%elem_of_nil.
  - destruct (bool_decide (c0 = LF)).
    + intros [->|Hin]%elem_of_cons Hc.
      * apply list_elem_of_singleton in Hc as ->. by left.
      * right. by eapply IH.
    + destruct (readlines text) as [|l ls].
      * intros ->%list_elem_of_singleton Hc.
        apply list_elem_of_singleton in Hc as ->. by left.
      * intros [->|Hin]%elem_of_cons Hc.
        -- apply elem_of_cons in Hc as [->|Hc]; [by left|].
           right. apply (IH l); [by left|done].
        -- right. apply (IH line); [by right|done].
Qed.

Lemma elem_of_lstrip (s : str) (c : ascii) : c ∈ lstrip s → c ∈ s.
Proof.
  induction s as [|a s IH]; [done|]. cbn [lstrip].
  destruct (isspace_char a); [|done]. intros Hc. right. by apply IH.
Qed.

Lemma elem_of_strip (s : str) (c : ascii) : c ∈ strip s → c ∈ s.
Proof.
  unfold strip, rstrip. rewrite elem_of_reverse.
  intros Hc%elem_of_lstrip. rewrite elem_of_reverse in Hc.
  by apply elem_of_lstrip.
Qed.

Lemma elem_of_take_list {A} (l : list A) (n : nat) (x : A) : x ∈ take n l → x ∈ l.
Proof. intros Hx. rewrite <- (take_drop n l). apply elem_of_app. by left. Qed.

Lemma elem_of_drop_list {A} (l : list A) (n : nat) (x : A) : x ∈ drop n l → x ∈ l.
Proof. intros Hx. rewrite <- (take_drop n l). apply elem_of_app. by right. Qed.

Lemma elem_of_spec_unquote (value : str) (c : ascii) :
  c ∈ spec_unquote value → c ∈ value.
Proof.
  destruct value as [|q rest]; [done|]. cbn [spec_unquote].
  destruct (_ && _); [|done]. intros Hc%elem_of_take_list. by right.
Qed.

Lemma spec_binding_value_chars (line key value : str) (c : ascii) :
  spec_binding line = Some (key, value) → c ∈ value → c ∈ line.
Proof.
  unfold spec_binding. destruct (strip line) as [|c0 l] eqn:Hl; [done|].
  destruct (bool_decide (c0 = "#"%char)); [done|].
  destruct (list_find _ _) as [[i y]|]; [|done]. intros [= _ <-] Hc.
  apply elem_of_strip. rewrite Hl.
  apply elem_of_spec_unquote, elem_of_strip in Hc.
  right. by apply elem_of_drop_list in Hc.
Qed.

(** No value loaded from a text without CR holds a CR. *)
Lemma loaded_values_no_CR (text key value : str) :
  CR ∉ text →
  foldl apply_line ∅ (readlines text) !! key = Some value → CR ∉ value.
Proof.
  intros Htext (before & line & after & Hlines & Hbind & _)%foldl_apply_line_lookup Hcr.
  apply Htext. apply (elem_of_readlines text line).
  - rewrite Hlines. apply elem_of_app. right. by left.
  - by eapply spec_binding_value_chars.
Qed.

Lemma dict_get_no_CR (text : str) (key fallback : string) :
  CR ∉ text → CR ∉ lit fallback →
  CR ∉ dict_get (foldl apply_line ∅ (readlines text)) key fallback.
Proof.
  intros Htext Hfallback. unfold dict_get.
  destruct (_ !! lit key) as [value|] eqn:Hv; [|done].
  exact (loaded_values_no_CR text (lit key) value Htext Hv).
Qed.

Lemma render_no_CR (template workspace_name diamond_name : str) :
  CR ∉ template → CR ∉ workspace_name → CR ∉ diamond_name →
  CR ∉ render template workspace_name diamond_name.
Proof.
  intros Ht Hw Hd. unfold render.
  intros [[?|?]%elem_of_replace|?]%elem_of_replace; done.
Qed.

(** C8: when the first two blocks of [main] have returned, the text that was
    validated with [json.loads] and written is the text that reading the
    output file yields, so that parsing what is read back gives the very
    document that was validated. *)
Theorem generated_file_round_trip (json_loads : str -> option json)
    (host : platform) (dir : path) (w0 w1 w2 : world) (env_vars : env) :
  main_load host dir w0 = Return env_vars w1 →
  main_generate json_loads host dir env_vars w1 = Return tt w2 →
  ∃ raw output config,
    fs w1 !! template_path dir = Some raw
    ∧ output = render (universal_newlines raw)
                 (workspace_name_of env_vars) (diamond_name_of env_vars)
    ∧ json_loads output = Some config
    ∧ fs w2 !! output_path dir = Some (encode_newlines host output)
    ∧ universal_newlines <$> fs w2 !! output_path dir = Some output
    ∧ (universal_newlines <$> fs w2 !! output_path dir) ≫= json_loads
      = Some config.
Proof.
  intros Hload Hgen.
  destruct (main_load_run host dir w0) as [entries Hrun].
  set (text := match fs w0 !! env_path dir with
               | Some raw0 => universal_newlines raw0
               | None => default_content
               end) in Hrun.
  assert (CR ∉ text) as Htext.
  { subst text. destruct (fs w0 !! env_path dir);
      [apply universal_newlines_no_CR|apply default_content_no_CR]. }
  assert (env_vars = foldl apply_line ∅ (readlines text)) as Henv
    by (rewrite Hrun in Hload; by injection Hload).
  clear Hrun. rewrite main_generate_run in Hgen.
  destruct (generate_devcontainer _ _ _ _ _ _) as [[] w|] eqn:Hg; [|done].
  assert (w2 = logged w [(NC, MsgBlank)]) as -> by congruence.
  apply generate_devcontainer_return in Hg as (raw & config & _ & Htp & Hjson & ->).
  set (output := render (universal_newlines raw)
                   (workspace_name_of env_vars) (diamond_name_of env_vars)) in *.
  exists raw, output, config. split; [exact Htp|]. split; [reflexivity|].
  split; [exact Hjson|].
  assert (fs (logged (generated host (output_path dir) env_vars output
                        (logged w1 [(BLUE, MsgGenerating)])) [(NC, MsgBlank)])
            !! output_path dir = Some (encode_newlines host output)) as Hout
    by apply lookup_insert_eq.
  split; [exact Hout|]. rewrite Hout. cbn [fmap option_fmap option_map].
  rewrite universal_newlines_encode; [by split|].
  subst output. rewrite Henv. apply render_no_CR.
  - apply universal_newlines_no_CR.
  - apply dict_get_no_CR; [done|]. apply (bool_decide_unpack _). by vm_compute.
  - apply dict_get_no_CR; [done|]. apply (bool_decide_unpack _). by vm_compute.
Qed.

(** The first two blocks of [main] on a checkout without [.env] file, for a
    template whose rendering with the default values parses. *)
Lemma checkout_run (json_loads : str -> option json) (host : platform)
    (template : str) (config : json) :
  json_loads (render (universal_newlines template)
                (workspace_name_of Example.default_env)
                (diamond_name_of Example.default_env)) = Some config →
  ∃ w1 w2,
    main_load host Example.dir (Example.checkout template)
    = Return Example.default_env w1
    ∧ main_generate json_loads host Example.dir Example.default_env w1
      = Return tt w2.
Proof.
  intros Hjson.
  destruct (main_load_run host Example.dir (Example.checkout template))
    as [entries Hload].
  change (fs (Example.checkout template))
    with ({[ template_path Example.dir := template ]} : gmap path str) in Hload.
  rewrite lookup_singleton_ne in Hload by apply template_path_not_env_path.
  eexists _, _. split; [exact Hload|].
  rewrite main_generate_run, generate_devcontainer_run.
  assert (valid_workspace_name (workspace_name_of Example.default_env) = true)
    as -> by (vm_compute; exact eq_refl).
  cbn [negb logged fs].
  rewrite lookup_insert_ne by (by intros ?%symmetry%template_path_not_env_path).
  rewrite lookup_singleton_eq. cbn zeta. by rewrite Hjson.
Qed.

Lemma generated_file_round_trip_witness :
  ∃ w1 w2 output config,
    main_load Windows Example.dir (Example.checkout Example.template)
    = Return Example.default_env w1
    ∧ main_generate RefJson.json_loads Windows Example.dir Example.default_env w1
      = Return tt w2
    ∧ RefJson.json_loads output = Some config
    ∧ (universal_newlines <$> fs w2 !! output_path Example.dir)
        ≫= RefJson.json_loads = Some config.
Proof.
  assert (is_Some (RefJson.json_loads
            (render (universal_newlines Example.template)
               (workspace_name_of Example.default_env)
               (diamond_name_of Example.default_env)))) as [config Hjson]
    by (vm_compute; by eexists).
  destruct (checkout_run RefJson.json_loads Windows Example.template config Hjson)
    as (w1 & w2 & Hload & Hgen).
  destruct (generated_file_round_trip RefJson.json_loads Windows Example.dir
              _ w1 w2 _ Hload Hgen)
    as (raw & output & config' & _ & _ & Hvalid & _ & _ & Hread).
  exists w1, w2, output, config'.
  split; [exact Hload|]. split; [exact Hgen|]. split; [exact Hvalid|exact Hread].
Defined.

(** ** C10: the diamond name is not checked *)



(** * Further properties of the script *)

(** ** Trimming *)

Lemma lstrip_head (s : str) (c : ascii) :
  head (lstrip s) = Some c → isspace_char c = false.
Proof.
  induction s as [|a s IH]; [done|]. cbn [lstrip].
  destruct (isspace_char a) eqn:Ha; [done|]. by intros [= <-].
Qed.

Lemma lstrip_fixed (s : str) :
  (∀ c, head s = Some c → isspace_char c = false) → lstrip s = s.
Proof.
  destruct s as [|a s]; [done|]. intros Hs. cbn [lstrip].
  by rewrite (Hs a eq_refl).
Qed.

Lemma lstrip_app_solid (x y : str) (c : ascii) :
  isspace_char c = false → lstrip (x ++ c :: y) = lstrip x ++ c :: y.
Proof.
  intros Hc. induction x as [|a x IH]; cbn [lstrip app].
  - by rewrite Hc.
  - by destruct (isspace_char a).
Qed.

Lemma rstrip_cons_solid (c : ascii) (s : str) :
  isspace_char c = false → rstrip (c :: s) = c :: rstrip s.
Proof.
  intros Hc. unfold rstrip. rewrite reverse_cons.
  rewrite lstrip_app_solid by done. by rewrite reverse_snoc.
Qed.

Lemma rstrip_last (s : str) (c : ascii) :
  last (rstrip s) = Some c → isspace_char c = false.
Proof. unfold rstrip. rewrite last_reverse. apply lstrip_head. Qed.

Lemma rstrip_fixed (s : str) :
  (∀ c, last s = Some c → isspace_char c = false) → rstrip s = s.
Proof.
  intros Hs. unfold rstrip. rewrite lstrip_fixed; [apply reverse_involutive|].
  intros c. rewrite head_reverse. apply Hs.
Qed.

Lemma strip_head (s : str) (c : ascii) :
  head (strip s) = Some c → isspace_char c = false.
Proof.
  unfold strip. destruct (lstrip s) as [|a l] eqn:Hl; [done|].
  assert (isspace_char a = false) as Ha by (apply (lstrip_head s); by rewrite Hl).
  rewrite rstrip_cons_solid by done. by intros [= <-].
Qed.

Lemma strip_last (s : str) (c : ascii) :
  last (strip s) = Some c → isspace_char c = false.
Proof. apply rstrip_last. Qed.

Lemma strip_fixed (s : str) :
  (∀ c, head s = Some c → isspace_char c = false) →
  (∀ c, last s = Some c → isspace_char c = false) →
  strip s = s.
Proof. intros Hh Hl. unfold strip. by rewrite lstrip_fixed, rstrip_fixed. Qed.

Lemma strip_idempotent (s : str) : strip (strip s) = strip s.
Proof. apply strip_fixed; [apply strip_head|apply strip_last]. Qed.

(** A text that starts with a solid character keeps it when trimmed. *)
Lemma strip_cons_solid (c : ascii) (s : str) :
  isspace_char c = false → head (strip (c :: s)) = Some c.
Proof.
  intros Hc. unfold strip. cbn [lstrip]. rewrite Hc.
  by rewrite rstrip_cons_solid.
Qed.

(** ** More on reading the [.env] file *)






(** What a line binds has a clean key. *)
Lemma spec_binding_key (line key value : str) :
  spec_binding line = Some (key, value) →
  ("="%char ∉ key) ∧ strip key = key ∧ startswith NUMBER_SIGN key = false.
Proof.
  unfold spec_binding. destruct (strip line) as [|c0 l] eqn:Hl; [done|].
  destruct (bool_decide (c0 = "#"%char)) eqn:Hhash; [done|].
  apply bool_decide_eq_false in Hhash.
  destruct (list_find _ _) as [[i y]|] eqn:Hfind; [|done]. intros [= <- _].
  apply list_find_Some in Hfind as (Hi & Hy & Hfirst).
  split; [|split].
  - intros Hin%elem_of_strip. apply list_elem_of_lookup in Hin as [j Hj].
    apply lookup_take_Some in Hj as [Hj Hlt]. by apply (Hfirst j "="%char).
  - apply strip_idempotent.
  - destruct i as [|i]; [done|]. cbn [take].
    assert (isspace_char c0 = false) as Hc0
      by (apply (strip_head line); by rewrite Hl).
    pose proof (strip_cons_solid c0 (take i l) Hc0) as Hhead.
    destruct (strip (c0 :: take i l)) as [|a k]; [done|].
    injection Hhead as ->. unfold NUMBER_SIGN. change (lit "#") with ["#"%char].
    rewrite startswith_singleton. by apply bool_decide_eq_false_2.
Qed.

(** X2: whatever [.env] file is loaded, no key of the mapping holds an
    ['='], has white space at either end, or starts with ['#']. *)
Theorem loaded_keys_are_clean (host : platform) (p : path) (w w' : world)
    (env_vars : env) :
  load_env_file host p w = Return env_vars w' →
  ∀ key value,
    env_vars !! key = Some value →
    ("="%char ∉ key) ∧ strip key = key ∧ startswith NUMBER_SIGN key = false.
Proof.
  intros Hload key value Hkey.
  assert (∃ text, env_vars = foldl apply_line ∅ (readlines text)) as [text ->].
  { destruct (fs w !! p) as [raw|] eqn:Hp.
    - destruct (load_env_file_present host p w raw Hp) as [entries Hrun].
      rewrite Hrun in Hload. injection Hload as Henv _.
      exists (universal_newlines raw). symmetry. exact Henv.
    - destruct (load_env_file_absent host p w Hp) as [entries Hrun].
      rewrite Hrun in Hload. injection Hload as Henv _.
      exists default_content. symmetry. exact Henv. }
  apply foldl_apply_line_lookup in Hkey as (before & line & after & _ & Hbind & _).
  by eapply spec_binding_key.
Qed.

(** X3: loading twice is loading once: a second [load_env_file] returns the
    same mapping and leaves the files and [os.environ] as the first left
    them, also when the first had to create the default file. *)
Theorem load_env_file_idempotent (host : platform) (p : path) (w w1 : world)
    (env_vars : env) :
  load_env_file host p w = Return env_vars w1 →
  ∃ entries,
    load_env_file host p w1 = Return env_vars (logged w1 entries).
Proof.
  intros Hload. destruct (fs w !! p) as [raw|] eqn:Hp.
  - destruct (load_env_file_present host p w raw Hp) as [entries Hrun].
    rewrite Hrun in Hload. injection Hload as <- <-.
    destruct (load_env_file_present host p (logged w entries) raw Hp)
      as [entries' ->].
    by exists entries'.
  - destruct (load_env_file_absent host p w Hp) as [entries Hrun].
    rewrite Hrun in Hload. injection Hload as <- <-.
    match goal with |- context [load_env_file host p ?w1] =>
      destruct (load_env_file_present host p w1
                  (encode_newlines host default_content)
                  (lookup_insert_eq _ _ _)) as [entries' ->] end.
    exists entries'.
    by rewrite universal_newlines_encode by apply default_content_no_CR.
Qed.

Lemma loaded_keys_are_clean_witness :
  ∃ env_vars w',
    load_env_file Posix [lit ".env"] (World ∅ ∅ []) = Return env_vars w'
    ∧ ∀ key value,
        env_vars !! key = Some value →
        ("="%char ∉ key) ∧ strip key = key ∧ startswith NUMBER_SIGN key = false.
Proof.
  destruct (load_env_file_absent Posix [lit ".env"] (World ∅ ∅ [])
              (lookup_empty _)) as [entries Hrun].
  eexists _, _. split; [exact Hrun|].
  exact (loaded_keys_are_clean Posix _ _ _ _ Hrun).
Defined.

Lemma load_env_file_idempotent_witness :
  ∃ env_vars w1 entries,
    load_env_file Windows [lit ".env"] (World ∅ ∅ []) = Return env_vars w1
    ∧ load_env_file Windows [lit ".env"] w1 = Return env_vars (logged w1 entries).
Proof.
  destruct (load_env_file_absent Windows [lit ".env"] (World ∅ ∅ [])
              (lookup_empty _)) as [entries Hrun].
  destruct (load_env_file_idempotent Windows _ _ _ _ Hrun) as [entries' Hagain].
  eexists _, _, entries'. split; [exact Hrun|exact Hagain].
Defined.

(** What [main_load] leaves of the world it starts in. *)
Lemma main_load_inv (host : platform) (dir : path) (w0 w1 : world)
    (env_vars : env) :
  main_load host dir w0 = Return env_vars w1 →
  environ w1 = environ w0
  ∧ is_Some (fs w1 !! env_path dir)
  ∧ (∀ p, p ≠ env_path dir → fs w1 !! p = fs w0 !! p)
  ∧ (∀ raw, fs w0 !! env_path dir = Some raw → fs w1 = fs w0)
  ∧ ∃ entries, terminal w1 = terminal w0 ++ entries.
Proof.
  intros Hload. destruct (main_load_run host dir w0) as [entries Hrun].
  rewrite Hrun in Hload. injection Hload as _ <-. cbn [fs environ terminal].
  split; [done|]. split; [|split; [|split]].
  - destruct (fs w0 !! env_path dir) eqn:Hp; [by rewrite Hp|].
    by rewrite lookup_insert_eq.
  - intros p Hne. destruct (fs w0 !! env_path dir); [done|].
    by rewrite lookup_insert_ne.
  - by intros raw ->.
  - by exists entries.
Qed.

(** X4: a run in a directory without template stops in the generate step
    with status 1 and the two lines about the template; by then the default
    [.env] file exists, and [devcontainer.json] is as it was. *)
Theorem missing_template_aborts (json_loads : str -> option json)
    (host : platform) (dir : path) (w0 w1 : world) (env_vars : env) :
  main_load host dir w0 = Return env_vars w1 →
  valid_workspace_name (workspace_name_of env_vars) = true →
  fs w0 !! template_path dir = None →
  main json_loads host dir w0
  = Exit 1 (logged w1 [(BLUE, MsgGenerating);
                       (RED, MsgTemplateNotFound (template_path dir));
                       (YELLOW, MsgEnsureTemplate)])
  ∧ is_Some (fs w1 !! env_path dir)
  ∧ fs w1 !! output_path dir = fs w0 !! output_path dir
  ∧ environ w1 = environ w0.
Proof.
  intros Hload Hvalid Htemplate.
  destruct (main_load_inv host dir w0 w1 env_vars Hload)
    as (Henviron & Henv & Hframe & _ & _).
  split; [|split; [exact Henv|split; [|exact Henviron]]].
  - rewrite main_run, Hload, main_generate_run, generate_devcontainer_run, Hvalid.
    cbn [negb logged fs].
    rewrite (Hframe _ (template_path_not_env_path dir)), Htemplate.
    by rewrite logged_logged.
  - apply Hframe, output_path_not_env_path.
Qed.

Lemma missing_template_aborts_witness :
  ∃ w1,
    main_load Posix Example.dir (World ∅ ∅ []) = Return Example.default_env w1
    ∧ valid_workspace_name (workspace_name_of Example.default_env) = true
    ∧ fs (World ∅ ∅ []) !! template_path Example.dir = None
    ∧ exit_status (main RefJson.json_loads Posix Example.dir (World ∅ ∅ [])) = 1%Z
    ∧ is_Some (fs w1 !! env_path Example.dir).
Proof.
  destruct (main_load_run Posix Example.dir (World ∅ ∅ [])) as [entries Hload].
  cbn [fs] in Hload. rewrite lookup_empty in Hload.
  assert (valid_workspace_name (workspace_name_of Example.default_env) = true)
    as Hvalid by (vm_compute; exact eq_refl).
  destruct (missing_template_aborts RefJson.json_loads Posix Example.dir _ _ _
              Hload Hvalid (lookup_empty _)) as (Hmain & Henv & _).
  eexists. split; [exact Hload|]. split; [exact Hvalid|].
  split; [apply lookup_empty|]. split; [by rewrite Hmain|exact Henv].
Defined.




Lemma generate_devcontainer_succeeds (json_loads : str -> option json)
    (host : platform) (tp op : path) (env_vars : env) (w : world)
    (raw : str) (config : json) :
  valid_workspace_name (workspace_name_of env_vars) = true →
  fs w !! tp = Some raw →
  json_loads (render (universal_newlines raw)
                (workspace_name_of env_vars) (diamond_name_of env_vars))
  = Some config →
  generate_devcontainer json_loads host tp op env_vars w
  = Return tt
      (generated host op env_vars
         (render (universal_newlines raw)
            (workspace_name_of env_vars) (diamond_name_of env_vars)) w).
Proof.
  intros Hvalid Hraw Hjson.
  rewrite generate_devcontainer_run, Hvalid, Hraw. cbn [negb]. cbn zeta.
  by rewrite Hjson.
Qed.

(** A run of [generate_devcontainer] in the example checkout: the mapping has
    one binding that is neither of the two names. *)
Lemma example_generate :
  ∃ w',
    generate_devcontainer RefJson.json_loads Posix
      (template_path Example.dir) (output_path Example.dir)
      {[ lit "VAULT_PORT" := lit "8200" ]} (Example.checkout Example.template)
    = Return tt w'.
Proof.
  assert (is_Some (RefJson.json_loads
            (render (universal_newlines Example.template)
               (workspace_name_of {[ lit "VAULT_PORT" := lit "8200" ]})
               (diamond_name_of {[ lit "VAULT_PORT" := lit "8200" ]}))))
    as [config Hjson] by (vm_compute; by eexists).
  eexists.
  apply (generate_devcontainer_succeeds _ _ _ _ _ _ Example.template config);
    [vm_compute; exact eq_refl|apply lookup_singleton_eq|exact Hjson].
Defined.


(** Writing and exporting the same things twice is doing it once. *)
Lemma generated_twice (host : platform) (op : path) (env_vars : env)
    (output : str) (w : world) :
  fs (generated host op env_vars output (generated host op env_vars output w))
  = fs (generated host op env_vars output w)
  ∧ environ (generated host op env_vars output
               (generated host op env_vars output w))
    = environ (generated host op env_vars output w).
Proof.
  cbn [generated fs environ]. split; [by rewrite insert_insert_eq|].
  apply map_eq. intros key.
  destruct (env_vars !! key) as [v|] eqn:Hkey.
  - rewrite (lookup_union_Some_l _ _ _ _ Hkey).
    by rewrite (lookup_union_Some_l _ _ _ _ Hkey).
  - rewrite !lookup_union_r by done.
    destruct (decide (key = lit "DIAMOND_NAME")) as [->|Hd];
      [by rewrite !lookup_insert_eq|].
    rewrite !(lookup_insert_ne _ (lit "DIAMOND_NAME")) by done.
    destruct (decide (key = lit "WORKSPACE_NAME")) as [->|Hw];
      [by rewrite !lookup_insert_eq|].
    rewrite !(lookup_insert_ne _ (lit "WORKSPACE_NAME")) by done.
    by rewrite lookup_union_r, !lookup_insert_ne.
Qed.

(** X7: with an output path that is not the template's,
    [generate_devcontainer] is idempotent: run again where it returned, it
    returns again and leaves the same files and the same [os.environ]. *)
Theorem generate_devcontainer_idempotent (json_loads : str -> option json)
    (host : platform) (tp op : path) (env_vars : env) (w w' : world) :
  op ≠ tp →
  generate_devcontainer json_loads host tp op env_vars w = Return tt w' →
  ∃ w'',
    generate_devcontainer json_loads host tp op env_vars w' = Return tt w''
    ∧ fs w'' = fs w' ∧ environ w'' = environ w'.
Proof.
  intros Hne Hrun.
  pose proof Hrun as (raw & config & Hvalid & Hraw & Hjson & ->)%generate_devcontainer_return.
  eexists. split; [|apply generated_twice].
  apply (generate_devcontainer_succeeds _ _ _ _ _ _ raw config);
    [exact Hvalid| |exact Hjson].
  cbn [generated fs]. by rewrite lookup_insert_ne.
Qed.

Lemma generate_devcontainer_idempotent_witness :
  ∃ w' w'',
    output_path Example.dir ≠ template_path Example.dir
    ∧ generate_devcontainer RefJson.json_loads Posix
        (template_path Example.dir) (output_path Example.dir)
        {[ lit "VAULT_PORT" := lit "8200" ]} (Example.checkout Example.template)
      = Return tt w'
    ∧ generate_devcontainer RefJson.json_loads Posix
        (template_path Example.dir) (output_path Example.dir)
        {[ lit "VAULT_PORT" := lit "8200" ]} w'
      = Return tt w''
    ∧ fs w'' = fs w'.
Proof.
  destruct example_generate as [w' Hrun].
  destruct (generate_devcontainer_idempotent _ _ _ _ _ _ _
              (output_path_not_template_path Example.dir) Hrun)
    as (w'' & Hagain & Hfs & _).
  exists w', w''. split; [apply output_path_not_template_path|].
  split; [exact Hrun|]. split; [exact Hagain|exact Hfs].
Defined.

(** [main] after its first block: it ends as the generate step ends, with
    more lines on the terminal when that step returns. *)
Lemma main_outcome (json_loads : str -> option json) (host : platform)
    (dir : path) (w0 w1 : world) (env_vars : env) :
  main_load host dir w0 = Return env_vars w1 →
  (∃ w2 entries,
     generate_devcontainer json_loads host (template_path dir) (output_path dir)
       env_vars (logged w1 [(BLUE, MsgGenerating)]) = Return tt w2
     ∧ main json_loads host dir w0 = Return tt (logged w2 entries))
  ∨ (∃ w2,
       generate_devcontainer json_loads host (template_path dir) (output_path dir)
         env_vars (logged w1 [(BLUE, MsgGenerating)]) = Exit 1 w2
       ∧ fs w2 = fs w1 ∧ environ w2 = environ w1
       ∧ main json_loads host dir w0 = Exit 1 w2).
Proof.
  intros Hload. rewrite main_run, Hload, main_generate_run.
  destruct (generate_devcontainer json_loads host (template_path dir)
              (output_path dir) env_vars (logged w1 [(BLUE, MsgGenerating)]))
    as [[] w2|code w2] eqn:Hgen.
  - left. exists w2.
    destruct (main_verify_run json_loads dir (logged w2 [(NC, MsgBlank)]))
      as (ok & entries & _ & ->).
    rewrite logged_logged. by eexists.
  - right. exists w2.
    destruct (generate_devcontainer_exit _ _ _ _ _ _ _ _ Hgen) as (-> & ? & ?).
    done.
Qed.

(** X8: a run touches two files at most, [.env] and [devcontainer.json]; a
    [.env] file that exists is left as it is, and so is the template. *)
Theorem main_touches_two_files (json_loads : str -> option json)
    (host : platform) (dir : path) (w0 : world) :
  (∀ p, p ≠ env_path dir → p ≠ output_path dir →
        fs (final_world (main json_loads host dir w0)) !! p = fs w0 !! p)
  ∧ (∀ raw, fs w0 !! env_path dir = Some raw →
            fs (final_world (main json_loads host dir w0)) !! env_path dir
            = Some raw)
  ∧ fs (final_world (main json_loads host dir w0)) !! template_path dir
    = fs w0 !! template_path dir.
Proof.
  destruct (main_load_run host dir w0) as [entries0 Hload].
  destruct (main_load_inv _ _ _ _ _ Hload) as (_ & _ & Hframe & Hkept & _).
  assert (∀ p, p ≠ output_path dir →
            fs (final_world (main json_loads host dir w0)) !! p
            = fs (World (match fs w0 !! env_path dir with
                         | Some _ => fs w0
                         | None => <[env_path dir
                                      := encode_newlines host default_content]>
                                     (fs w0)
                         end) (environ w0) (terminal w0 ++ entries0)) !! p)
    as Hfinal.
  { intros p Hp.
    destruct (main_outcome json_loads _ _ _ _ _ Hload)
      as [(w2 & entries & Hgen & ->)|(w2 & _ & Hfs & _ & ->)].
    - apply generate_devcontainer_return in Hgen
        as (raw & config & _ & _ & _ & ->).
      cbn [final_world logged generated fs]. by rewrite lookup_insert_ne.
    - cbn [final_world]. by rewrite Hfs. }
  split; [|split].
  - intros p Henv Hout. rewrite Hfinal by done. by apply Hframe.
  - intros raw Hraw. rewrite Hfinal by (apply not_eq_sym, output_path_not_env_path).
    by rewrite (Hkept raw Hraw).
  - rewrite Hfinal by (apply not_eq_sym, output_path_not_template_path).
    apply Hframe, template_path_not_env_path.
Qed.

Lemma Return_inj {A} (a b : A) (w v : world) :
  Return a w = Return b v → a = b ∧ w = v.
Proof. by intros [= -> ->]. Qed.

(** Where the [.env] file is what the first block of [main] left, that block
    loads the same mapping and leaves the files as they are. *)
Lemma main_load_again (host : platform) (dir : path) (w0 w1 w : world)
    (env_vars : env) :
  main_load host dir w0 = Return env_vars w1 →
  fs w !! env_path dir = fs w1 !! env_path dir →
  ∃ entries,
    main_load host dir w
    = Return env_vars (World (fs w) (environ w) (terminal w ++ entries)).
Proof.
  intros Hload Hsame.
  destruct (main_load_run host dir w0) as [entries0 Hrun0].
  rewrite Hrun0 in Hload. apply Return_inj in Hload as [<- <-].
  assert (∀ a b c, fs (World a b c) = a) as Hfs by done.
  rewrite Hfs in Hsame. clear Hfs.
  destruct (main_load_run host dir w) as [entries Hrun].
  exists entries. rewrite Hrun. clear Hrun Hrun0.
  destruct (fs w0 !! env_path dir) as [raw|] eqn:Hraw.
  - rewrite Hraw in Hsame. by rewrite Hsame.
  - rewrite lookup_insert_eq in Hsame. rewrite Hsame. cbv beta iota.
    by rewrite universal_newlines_encode by apply default_content_no_CR.
Qed.

(** The lines on the terminal have no part in what [generate_devcontainer]
    does to the files, to [os.environ] and to the exit status. *)
Lemma generate_devcontainer_same (json_loads : str -> option json)
    (host : platform) (tp op : path) (env_vars : env) (w v : world) :
  fs w = fs v → environ w = environ v →
  exit_status (generate_devcontainer json_loads host tp op env_vars w)
  = exit_status (generate_devcontainer json_loads host tp op env_vars v)
  ∧ fs (final_world (generate_devcontainer json_loads host tp op env_vars w))
    = fs (final_world (generate_devcontainer json_loads host tp op env_vars v))
  ∧ environ (final_world (generate_devcontainer json_loads host tp op env_vars w))
    = environ (final_world (generate_devcontainer json_loads host tp op env_vars v)).
Proof.
  intros Hfs Henviron. rewrite !generate_devcontainer_run, Hfs.
  destruct (negb _); [done|]. destruct (fs v !! tp) as [raw|]; [|done].
  cbn zeta. destruct (json_loads _); [|done].
  cbn [exit_status final_world generated fs environ]. by rewrite Hfs, Henviron.
Qed.

(** The end of [main], from the end of its generate step. *)
Lemma main_end (json_loads : str -> option json) (host : platform)
    (dir : path) (w0 w1 : world) (env_vars : env) :
  main_load host dir w0 = Return env_vars w1 →
  exit_status (main json_loads host dir w0)
  = exit_status (generate_devcontainer json_loads host (template_path dir)
                   (output_path dir) env_vars (logged w1 [(BLUE, MsgGenerating)]))
  ∧ fs (final_world (main json_loads host dir w0))
    = fs (final_world (generate_devcontainer json_loads host (template_path dir)
                         (output_path dir) env_vars
                         (logged w1 [(BLUE, MsgGenerating)])))
  ∧ environ (final_world (main json_loads host dir w0))
    = environ (final_world (generate_devcontainer json_loads host
                              (template_path dir) (output_path dir) env_vars
                              (logged w1 [(BLUE, MsgGenerating)]))).
Proof.
  intros Hload.
  by destruct (main_outcome json_loads _ _ _ _ _ Hload)
    as [(w2 & entries & -> & ->)|(w2 & -> & _ & _ & ->)].
Qed.

(** [generate_devcontainer] writes to its output path only. *)
Lemma generate_devcontainer_frame (json_loads : str -> option json)
    (host : platform) (tp op : path) (env_vars : env) (w : world) (p : path) :
  p ≠ op →
  fs (final_world (generate_devcontainer json_loads host tp op env_vars w)) !! p
  = fs w !! p.
Proof.
  intros Hne. rewrite generate_devcontainer_run.
  destruct (negb _); [done|]. destruct (fs w !! tp) as [raw|]; [|done].
  cbn zeta. destruct (json_loads _); [|done].
  cbn [final_world generated fs]. by rewrite lookup_insert_ne.
Qed.

(** [generate_devcontainer] run again where it ended, ends there again. *)
Lemma generate_devcontainer_again (json_loads : str -> option json)
    (host : platform) (tp op : path) (env_vars : env) (w : world) :
  op ≠ tp →
  exit_status (generate_devcontainer json_loads host tp op env_vars
                 (final_world
                    (generate_devcontainer json_loads host tp op env_vars w)))
  = exit_status (generate_devcontainer json_loads host tp op env_vars w)
  ∧ fs (final_world
          (generate_devcontainer json_loads host tp op env_vars
             (final_world
                (generate_devcontainer json_loads host tp op env_vars w))))
    = fs (final_world (generate_devcontainer json_loads host tp op env_vars w))
  ∧ environ (final_world
               (generate_devcontainer json_loads host tp op env_vars
                  (final_world
                     (generate_devcontainer json_loads host tp op env_vars w))))
    = environ (final_world
                 (generate_devcontainer json_loads host tp op env_vars w)).
Proof.
  intros Hne.
  destruct (generate_devcontainer json_loads host tp op env_vars w)
    as [[] w'|code w'] eqn:Hrun; cbn [final_world exit_status].
  - pose proof Hrun as (raw & config & Hvalid & Hraw & Hjson & ->)%generate_devcontainer_return.
    rewrite (generate_devcontainer_succeeds _ _ _ _ _ _ raw config);
      [|exact Hvalid| |exact Hjson].
    + cbn [final_world exit_status]. split; [done|]. apply generated_twice.
    + cbn [generated fs]. by rewrite lookup_insert_ne.
  - destruct (generate_devcontainer_exit _ _ _ _ _ _ _ _ Hrun)
      as (-> & Hfs & Henviron).
    destruct (generate_devcontainer_same json_loads host tp op env_vars w' w
                Hfs Henviron) as (-> & -> & ->).
    by rewrite Hrun.
Qed.

(** X9: a second run ends as the first did: same exit status, same files,
    same [os.environ]. *)
Theorem main_idempotent (json_loads : str -> option json) (host : platform)
    (dir : path) (w0 : world) :
  exit_status (main json_loads host dir
                 (final_world (main json_loads host dir w0)))
  = exit_status (main json_loads host dir w0)
  ∧ fs (final_world (main json_loads host dir
                       (final_world (main json_loads host dir w0))))
    = fs (final_world (main json_loads host dir w0))
  ∧ environ (final_world (main json_loads host dir
                            (final_world (main json_loads host dir w0))))
    = environ (final_world (main json_loads host dir w0)).
Proof.
  destruct (main_load_run host dir w0) as [entries0 Hload].
  destruct (main_end json_loads _ _ _ _ _ Hload) as (Hstatus & Hfs & Henviron).
  set (w := final_world (main json_loads host dir w0)) in *.
  destruct (main_load_again host dir w0 _ w _ Hload) as [entries1 Hload1].
  { rewrite Hfs.
    by rewrite generate_devcontainer_frame by apply not_eq_sym, output_path_not_env_path. }
  destruct (main_end json_loads _ _ _ _ _ Hload1) as (-> & -> & ->).
  rewrite Hstatus, Hfs, Henviron.
  match goal with |- context [final_world ?o0] =>
    match o0 with
    | generate_devcontainer _ _ _ _ ?env_vars (logged (World (_ ) (environ w0) _) _) =>
        set (o := o0) in *;
        destruct (generate_devcontainer_again json_loads host (template_path dir)
                    (output_path dir) env_vars
                    (logged (World (match fs w0 !! env_path dir with
                         | Some _ => fs w0
                         | None => <[env_path dir
                                      := encode_newlines host default_content]>
                                     (fs w0)
                         end) (environ w0) (terminal w0 ++ entries0))
                       [(BLUE, MsgGenerating)])
                    (output_path_not_template_path dir)) as (Ha & Hb & Hc)
    end
  end.
  fold o in Ha, Hb, Hc. rewrite <- Ha, <- Hb, <- Hc.
  apply generate_devcontainer_same; cbn [logged fs environ]; done.
Qed.

(** The loop over the fields stops at the first field that is not in the
    document, or for which the test raises. *)
Lemma check_fields_first_failure (config : json) (before after : list str)
    (field : str) (w : world) :
  Forall (λ f, py_in f config = Some true) before →
  py_in field config ≠ Some true →
  check_fields config (before ++ field :: after) w
  = Return false
      (logged w [match py_in field config with
                 | None => (RED, MsgVerifyError)
                 | Some _ => (YELLOW, MsgMissingField field)
                 end]).
Proof.
  intros Hbefore Hfield. induction Hbefore as [|f before Hf _ IH].
  - cbn [app check_fields]. by destruct (py_in field config) as [[]|].
  - cbn [app check_fields]. by rewrite Hf.
Qed.

(** Some field fails the test, or all pass. *)
Lemma check_fields_cases (config : json) (fields : list str) :
  Forall (λ f, py_in f config = Some true) fields
  ∨ ∃ before field after,
      fields = before ++ field :: after
      ∧ Forall (λ f, py_in f config = Some true) before
      ∧ py_in field config ≠ Some true.
Proof.
  induction fields as [|f fields IH]; [by left|].
  destruct (decide (py_in f config = Some true)) as [Hf|Hf].
  - destruct IH as [Hall|(before & field & after & -> & Hbefore & Hfield)].
    + left. by constructor.
    + right. exists (f :: before), field, after. split; [done|].
      split; [by constructor|done].
  - right. by exists [], f, fields.
Qed.

(** X10: [verify_generated_config] never exits and changes neither files nor
    [os.environ].  When it returns [True] it has printed nothing; when it
    returns [False] it has printed one line: the red error, or the yellow
    warning that names one of the four required fields. *)
Theorem verify_generated_config_reports (json_loads : str -> option json)
    (op : path) (w : world) :
  ∃ ok entries,
    verify_generated_config json_loads op w = Return ok (logged w entries)
    ∧ (ok = true → entries = [])
    ∧ (ok = false →
       entries = [(RED, MsgVerifyError)]
       ∨ ∃ field,
           field ∈ required_fields
           ∧ entries = [(YELLOW, MsgMissingField field)]).
Proof.
  rewrite verify_generated_config_run.
  destruct ((universal_newlines <$> fs w !! op) ≫= json_loads) as [config|].
  - destruct (check_fields_cases config required_fields)
      as [Hall|(before & field & after & Hfields & Hbefore & Hfield)].
    + exists true, []. rewrite (check_fields_present _ _ _ Hall).
      split; [unfold logged; rewrite app_nil_r; by destruct w|]. by split.
    + rewrite Hfields, (check_fields_first_failure _ _ _ _ _ Hbefore Hfield).
      eexists false, _. split; [done|]. split; [done|]. intros _.
      destruct (py_in field config); [right|by left].
      exists field. split; [|done].
      apply elem_of_app. right. apply list_elem_of_here.
  - exists false, [(RED, MsgVerifyError)]. split; [done|]. split; [done|].
    intros _. by left.
Qed.

(** X11: on a document that is a JSON object, [verify_generated_config]
    returns [True] exactly when the four required fields are among its keys,
    and otherwise warns about the first of the four, in the order of the
    source, that is missing. *)
Theorem verify_object_document (json_loads : str -> option json)
    (op : path) (w : world) (raw : str) (items : list (str * json)) :
  fs w !! op = Some raw →
  json_loads (universal_newlines raw) = Some (JDict items) →
  (verify_generated_config json_loads op w = Return true w
   ↔ ∀ field, field ∈ required_fields → field ∈ items.*1)
  ∧ (∀ before field after,
       required_fields = before ++ field :: after →
       (∀ f, f ∈ before → f ∈ items.*1) → (field ∉ items.*1) →
       verify_generated_config json_loads op w
       = Return false (logged w [(YELLOW, MsgMissingField field)])).
Proof.
  intros Hraw Hjson. rewrite verify_generated_config_run, Hraw.
  cbn [fmap option_fmap option_map mbind option_bind]. rewrite Hjson.
  assert (∀ fields,
            Forall (λ f, py_in f (JDict items) = Some true) fields
            ↔ ∀ f, f ∈ fields → f ∈ items.*1) as Hin.
  { intros fields. rewrite Forall_forall. apply forall_proper. intros f.
    cbn [py_in].
    split; intros Hf Hfield; specialize (Hf Hfield).
    - injection Hf as Hf. by apply bool_decide_eq_true in Hf.
    - f_equal. by apply bool_decide_eq_true. }
  split.
  - split.
    + intros Hrun.
      destruct (check_fields_cases (JDict items) required_fields)
        as [Hall|(before & field & after & Hfields & Hbefore & Hfield)];
        [by apply Hin|].
      rewrite Hfields, (check_fields_first_failure _ _ _ _ _ Hbefore Hfield)
        in Hrun.
      discriminate Hrun.
    + intros Hall. apply check_fields_present. by apply Hin.
  - intros before field after Hfields Hbefore Hfield.
    rewrite Hfields, check_fields_first_failure; [done|by apply Hin|].
    cbn [py_in]. intros [= Hf]. by apply bool_decide_eq_true in Hf.
Qed.

Lemma verify_object_document_witness :
  fs (World {[ output_path Example.dir := Example.short_template ]} ∅ [])
    !! output_path Example.dir = Some Example.short_template
  ∧ RefJson.json_loads (universal_newlines Example.short_template)
    = Some (JDict [(lit "name", JString (lit "__WORKSPACE_NAME__"));
                   (lit "service", JString (lit "__DIAMOND_NAME__"))])
  ∧ verify_generated_config RefJson.json_loads (output_path Example.dir)
      (World {[ output_path Example.dir := Example.short_template ]} ∅ [])
    = Return false
        (logged (World {[ output_path Example.dir := Example.short_template ]} ∅ [])
           [(YELLOW, MsgMissingField (lit "dockerComposeFile"))]).
Proof.
  assert (fs (World {[ output_path Example.dir := Example.short_template ]} ∅ [])
            !! output_path Example.dir = Some Example.short_template) as Hraw
    by apply lookup_singleton_eq.
  assert (RefJson.json_loads (universal_newlines Example.short_template)
          = Some (JDict [(lit "name", JString (lit "__WORKSPACE_NAME__"));
                         (lit "service", JString (lit "__DIAMOND_NAME__"))]))
    as Hjson by (vm_compute; exact eq_refl).
  split; [exact Hraw|]. split; [exact Hjson|].
  destruct (verify_object_document RefJson.json_loads _ _ _ _ Hraw Hjson)
    as [_ Hfirst].
  apply (Hfirst [lit "name"] (lit "dockerComposeFile")
           [lit "service"; lit "workspaceFolder"]); [reflexivity| |].
  - intros f ->%list_elem_of_singleton. apply list_elem_of_here.
  - apply (bool_decide_unpack _). vm_compute. exact I.
Defined.

(** [verify_generated_config] returns [True] exactly when every required
    field passes the membership test on the document read. *)
Lemma verify_true_iff (json_loads : str -> option json) (op : path) (w : world)
    (config : json) :
  (universal_newlines <$> fs w !! op) ≫= json_loads = Some config →
  verify_generated_config json_loads op w = Return true w
  ↔ ∀ field, field ∈ required_fields → py_in field config = Some true.
Proof.
  intros Hconfig. rewrite verify_generated_config_run, Hconfig.
  rewrite <- Forall_forall. split.
  - intros Hrun.
    destruct (check_fields_cases config required_fields)
      as [Hall|(before & field & after & Hfields & Hbefore & Hfield)]; [done|].
    rewrite Hfields, (check_fields_first_failure _ _ _ _ _ Hbefore Hfield)
      in Hrun.
    discriminate Hrun.
  - apply check_fields_present.
Qed.

(** X12: the red error of [verify_generated_config] is printed exactly when
    the file is missing, is not JSON, or holds [null], a boolean or a number;
    the function then returns [False]. *)
Theorem verify_error_cases (json_loads : str -> option json) (op : path)
    (w : world) :
  verify_generated_config json_loads op w
  = Return false (logged w [(RED, MsgVerifyError)])
  ↔ match fs w !! op with
    | None => True
    | Some raw =>
        match json_loads (universal_newlines raw) with
        | None | Some JNull | Some (JBool _) | Some (JNumber _) => True
        | Some (JString _) | Some (JList _) | Some (JDict _) => False
        end
    end.
Proof.
  rewrite verify_generated_config_run.
  destruct (fs w !! op) as [raw|];
    cbn [fmap option_fmap option_map mbind option_bind]; [|done].
  destruct (json_loads (universal_newlines raw)) as [config|]; [|done].
  assert (∀ field, py_in field config ≠ None →
            check_fields config required_fields w
            ≠ Return false (logged w [(RED, MsgVerifyError)])) as Hcontainer.
  { intros field0 Hin.
    assert (∀ field, py_in field config ≠ None) as Hall
      by (intros field; by destruct config).
    destruct (check_fields_cases config required_fields)
      as [Hpass|(before & field & after & Hfields & Hbefore & Hfield)].
    - by rewrite (check_fields_present _ _ _ Hpass).
    - rewrite Hfields, (check_fields_first_failure _ _ _ _ _ Hbefore Hfield).
      specialize (Hall field). destruct (py_in field config); [|done].
      unfold logged. intros [= Heq%app_inv_head]. discriminate Heq. }
  destruct config as [|b|n|s|elements|items];
    try (split; [done|intros _; reflexivity]);
    (split; [|done]); intros Hrun;
    by apply (Hcontainer [] ltac:(done)) in Hrun.
Qed.

(** X13: a document that is a JSON string or array passes the verification
    as well: a string when each of the four field names occurs in it as a
    substring, an array when each is one of its elements. *)
Theorem verify_string_or_array_document (json_loads : str -> option json)
    (op : path) (w : world) (raw : str) :
  fs w !! op = Some raw →
  (∀ s, json_loads (universal_newlines raw) = Some (JString s) →
        verify_generated_config json_loads op w = Return true w
        ↔ ∀ field, field ∈ required_fields → infix field s)
  ∧ (∀ elements, json_loads (universal_newlines raw) = Some (JList elements) →
        verify_generated_config json_loads op w = Return true w
        ↔ ∀ field, field ∈ required_fields → JString field ∈ elements).
Proof.
  intros Hraw. split.
  - intros s Hjson. rewrite (verify_true_iff _ _ _ (JString s))
      by (by rewrite Hraw; cbn; rewrite Hjson).
    apply forall_proper. intros field. apply forall_proper. intros _.
    cbn [py_in]. rewrite <- contains_infix. split; [by intros [= ?]|by intros ->].
  - intros elements Hjson. rewrite (verify_true_iff _ _ _ (JList elements))
      by (by rewrite Hraw; cbn; rewrite Hjson).
    apply forall_proper. intros field. apply forall_proper. intros _.
    cbn [py_in]. clear Hjson.
    assert (existsb (λ j, match j with
                          | JString s => bool_decide (field = s)
                          | _ => false
                          end) elements = true
            ↔ JString field ∈ elements) as <-.
    { induction elements as [|j elements IH]; cbn [existsb].
      - split; [done|]. by intros ?%elem_of_nil.
      - rewrite orb_true_iff, IH, elem_of_cons. apply or_iff_compat_r.
        destruct j; try (split; [done|by intros [= ?]]).
        rewrite bool_decide_eq_true. split; [by intros ->|by intros [= ->]]. }
    split; [by intros [= ?]|by intros ->].
Qed.

Lemma verify_string_or_array_document_witness :
  fs (World {[ output_path Example.dir
               := json_lit "'name dockerComposeFile service workspaceFolder'" ]}
        ∅ [])
    !! output_path Example.dir
  = Some (json_lit "'name dockerComposeFile service workspaceFolder'")
  ∧ verify_generated_config RefJson.json_loads (output_path Example.dir)
      (World {[ output_path Example.dir
                := json_lit "'name dockerComposeFile service workspaceFolder'" ]}
         ∅ [])
    = Return true
        (World {[ output_path Example.dir
                  := json_lit "'name dockerComposeFile service workspaceFolder'" ]}
           ∅ []).
Proof.
  assert (fs (World {[ output_path Example.dir
               := json_lit "'name dockerComposeFile service workspaceFolder'" ]}
                ∅ [])
            !! output_path Example.dir
          = Some (json_lit "'name dockerComposeFile service workspaceFolder'"))
    as Hraw by apply lookup_singleton_eq.
  split; [exact Hraw|].
  destruct (verify_string_or_array_document RefJson.json_loads _ _ _ Hraw)
    as [Hstring _].
  apply (Hstring (lit "name dockerComposeFile service workspaceFolder"));
    [vm_compute; exact eq_refl|].
  apply Forall_forall. unfold required_fields.
  repeat constructor; apply contains_infix; vm_compute; exact eq_refl.
Defined.

(** X14: a template in which neither placeholder occurs is rendered as it
    is, whatever the two names are. *)
Theorem render_without_placeholders (template workspace_name diamond_name : str) :
  ¬ infix WORKSPACE_TOKEN template →
  ¬ infix DIAMOND_TOKEN template →
  render template workspace_name diamond_name = template.
Proof.
  intros Hw Hd. unfold render.
  rewrite (replace_none WORKSPACE_TOKEN) by done.
  by rewrite (replace_none DIAMOND_TOKEN).
Qed.

Lemma render_without_placeholders_witness :
  ¬ infix WORKSPACE_TOKEN Example.array_template
  ∧ ¬ infix DIAMOND_TOKEN Example.array_template
  ∧ render Example.array_template (lit "a") (lit "b") = Example.array_template.
Proof.
  assert (¬ infix WORKSPACE_TOKEN Example.array_template) as Hw
    by (apply contains_false; vm_compute; exact eq_refl).
  assert (¬ infix DIAMOND_TOKEN Example.array_template) as Hd
    by (apply contains_false; vm_compute; exact eq_refl).
  split; [exact Hw|]. split; [exact Hd|].
  exact (render_without_placeholders _ _ _ Hw Hd).
Defined.

Lemma assemble_ext (shown shown' : placeholder → str)
    (segments : list (str * placeholder)) (ending : str) :
  (∀ p, shown p = shown' p) →
  assemble shown segments ending = assemble shown' segments ending.
Proof.
  intros Hshown. induction segments as [|[text p] rest IH]; [done|].
  cbn [assemble]. by rewrite Hshown, IH.
Qed.

(** The second pass over a text whose placeholders all read
    [__DIAMOND_NAME__]. *)
Lemma replace_diamond_everywhere d segments ending :
  Forall (λ seg, inert seg.1 = true) segments → inert ending = true →
  replace DIAMOND_TOKEN d (assemble (λ _, DIAMOND_TOKEN) segments ending)
  = assemble (λ _, d) segments ending.
Proof.
  intros Hsegs Hend. induction segments as [|[text p] rest IH]; cbn [assemble].
  - apply replace_none; [done|]. intros Hi.
    apply (inert_no_overlap ending DiamondName Hend). right; by left.
  - apply Forall_cons in Hsegs as [Htext Hrest]. cbn [fst] in Htext.
    rewrite replace_skip; [|done|].
    2:{ apply inert_starts_nowhere. by apply (inert_no_overlap _ DiamondName). }
    f_equal. rewrite replace_token_head by done. f_equal. by apply IH.
Qed.

(** X15: the two passes are chained.  A workspace name that reads
    [__DIAMOND_NAME__] passes the check on the name, and the second pass
    then puts the diamond name in its place: every placeholder of the
    template, of either kind, ends up as the diamond name. *)
Theorem workspace_name_may_be_the_diamond_token (env_vars : env)
    (segments : list (str * placeholder)) (ending : str) :
  workspace_name_of env_vars = DIAMOND_TOKEN →
  Forall (λ seg, inert seg.1 = true) segments → inert ending = true →
  valid_workspace_name (workspace_name_of env_vars) = true
  ∧ render (assemble token segments ending)
      (workspace_name_of env_vars) (diamond_name_of env_vars)
    = assemble (λ _, diamond_name_of env_vars) segments ending.
Proof.
  intros -> Hsegs Hend. split; [vm_compute; exact eq_refl|].
  unfold render. rewrite replace_workspace_assemble by done.
  rewrite (assemble_ext _ (λ _, DIAMOND_TOKEN)) by (by intros []).
  by apply replace_diamond_everywhere.
Qed.

Lemma workspace_name_may_be_the_diamond_token_witness :
  workspace_name_of {[ lit "WORKSPACE_NAME" := DIAMOND_TOKEN ]} = DIAMOND_TOKEN
  ∧ Forall (λ seg : str * placeholder, inert seg.1 = true)
      [(json_lit "{'name': '", WorkspaceName);
       (json_lit "', 'service': '", DiamondName)]
  ∧ inert (json_lit "'}") = true
  ∧ render
      (json_lit "{'name': '__WORKSPACE_NAME__', 'service': '__DIAMOND_NAME__'}")
      (workspace_name_of {[ lit "WORKSPACE_NAME" := DIAMOND_TOKEN ]})
      (diamond_name_of {[ lit "WORKSPACE_NAME" := DIAMOND_TOKEN ]})
    = json_lit "{'name': 'ExampleDiamond', 'service': 'ExampleDiamond'}".
Proof.
  assert (workspace_name_of {[ lit "WORKSPACE_NAME" := DIAMOND_TOKEN ]}
          = DIAMOND_TOKEN) as Hname by (vm_compute; exact eq_refl).
  assert (Forall (λ seg : str * placeholder, inert seg.1 = true)
            [(json_lit "{'name': '", WorkspaceName);
             (json_lit "', 'service': '", DiamondName)]) as Hsegs
    by (repeat constructor; vm_compute; exact eq_refl).
  assert (inert (json_lit "'}") = true) as Hend by (vm_compute; exact eq_refl).
  split; [exact Hname|]. split; [exact Hsegs|]. split; [exact Hend|].
  destruct (workspace_name_may_be_the_diamond_token _ _ _ Hname Hsegs Hend)
    as [_ Hrender].
  exact Hrender.
Defined.


(** X17: line endings.  A [.env] file saved with the line ends of either
    platform loads as its text with plain line feeds does. *)
Theorem load_env_file_any_line_ends (host saved_on : platform) (p : path)
    (w : world) (text : str) :
  CR ∉ text →
  fs w !! p = Some (encode_newlines saved_on text) →
  ∃ entries,
    load_env_file host p w
    = Return (foldl apply_line ∅ (readlines text)) (logged w entries).
Proof.
  intros Htext Hp.
  destruct (load_env_file_present host p w _ Hp) as [entries Hrun].
  exists entries. by rewrite Hrun, universal_newlines_encode.
Qed.

Lemma load_env_file_any_line_ends_witness :
  (CR ∉ unlines ["A=1"; "B=2"])
  ∧ fs (World {[ [lit ".env"] := encode_newlines Windows (unlines ["A=1"; "B=2"]) ]}
          ∅ [])
      !! [lit ".env"]
    = Some (encode_newlines Windows (unlines ["A=1"; "B=2"]))
  ∧ ∃ entries,
      load_env_file Posix [lit ".env"]
        (World {[ [lit ".env"]
                  := encode_newlines Windows (unlines ["A=1"; "B=2"]) ]} ∅ [])
      = Return {[ lit "A" := lit "1"; lit "B" := lit "2" ]}
          (logged
             (World {[ [lit ".env"]
                       := encode_newlines Windows (unlines ["A=1"; "B=2"]) ]}
                ∅ [])
             entries).
Proof.
  assert (CR ∉ unlines ["A=1"; "B=2"]) as Htext
    by (apply (bool_decide_unpack _); vm_compute; exact I).
  split; [exact Htext|]. split; [apply lookup_singleton_eq|].
  destruct (load_env_file_any_line_ends Posix Windows [lit ".env"]
              (World {[ [lit ".env"]
                        := encode_newlines Windows (unlines ["A=1"; "B=2"]) ]}
                 ∅ [])
              _ Htext (lookup_singleton_eq _ _)) as [entries Hrun].
  exists entries. rewrite Hrun. reflexivity.
Defined.

(** ** White space around a line *)

Lemma lstrip_spaces_app (ws s : str) :
  Forall (λ c, isspace_char c = true) ws → lstrip (ws ++ s) = lstrip s.
Proof.
  induction 1 as [|c ws Hc _ IH]; [done|]. cbn [app lstrip]. by rewrite Hc.
Qed.

Lemma lstrip_app (a b : str) :
  lstrip (a ++ b) = match lstrip a with [] => lstrip b | _ => lstrip a ++ b end.
Proof.
  induction a as [|c a IH]; [done|]. cbn [app lstrip].
  destruct (isspace_char c); [exact IH|done].
Qed.

Lemma rstrip_app_spaces (s ws : str) :
  Forall (λ c, isspace_char c = true) ws → rstrip (s ++ ws) = rstrip s.
Proof.
  intros Hws. unfold rstrip. rewrite reverse_app.
  rewrite lstrip_spaces_app; [done|]. by apply Forall_reverse.
Qed.

Lemma rstrip_spaces (ws : str) :
  Forall (λ c, isspace_char c = true) ws → rstrip ws = [].
Proof. intros Hws. by rewrite <- (app_nil_l ws), rstrip_app_spaces. Qed.

Lemma strip_margins (before line after : str) :
  Forall (λ c, isspace_char c = true) before →
  Forall (λ c, isspace_char c = true) after →
  strip (before ++ line ++ after) = strip line.
Proof.
  intros Hbefore Hafter. unfold strip.
  rewrite lstrip_spaces_app by done. rewrite lstrip_app.
  destruct (lstrip line) as [|c l] eqn:Hline.
  - rewrite rstrip_spaces; [done|].
    clear -Hafter. induction Hafter as [|c after Hc _ IH]; [constructor|].
    cbn [lstrip]. rewrite Hc. exact IH.
  - by apply rstrip_app_spaces.
Qed.

(** X18: the white space around a line, its line feed included, has no part
    in what the line does: the line is skipped, bound or reported as the
    line without it is. *)
Theorem parse_line_ignores_margins (before line after : str) :
  Forall (λ c, isspace_char c = true) before →
  Forall (λ c, isspace_char c = true) after →
  parse_line (before ++ line ++ after) = parse_line line.
Proof.
  intros Hbefore Hafter. unfold parse_line.
  by rewrite strip_margins.
Qed.

Lemma parse_line_ignores_margins_witness :
  Forall (λ c, isspace_char c = true) (lit "  ")
  ∧ Forall (λ c, isspace_char c = true) [" "%char; CR; LF]
  ∧ parse_line (lit "  " ++ lit "NAME = 'x y'" ++ [" "%char; CR; LF])
    = Bind (lit "NAME") (lit "x y").
Proof.
  assert (Forall (λ c, isspace_char c = true) (lit "  ")) as Hbefore
    by (repeat constructor).
  assert (Forall (λ c, isspace_char c = true) [" "%char; CR; LF]) as Hafter
    by (repeat constructor).
  split; [exact Hbefore|]. split; [exact Hafter|].
  rewrite (parse_line_ignores_margins _ (lit "NAME = 'x y'") _ Hbefore Hafter).
  reflexivity.
Defined.
